(** * The pm2-io-apm-go transporter: connection manager, dispatcher and loops

    A shallow embedding of the [Transporter] of package [services]
    (main.go:134-391) as state-passing Rocq functions over the transporter's
    fields, a scripted network, and an event trace.

    Boundary of the model.  The Go language's own behaviour is modelled: field
    updates, branches, type assertions, dereferences of nil pointers, [panic],
    [defer], [go].  What the imported libraries answer (HTTP, the websocket
    dialer and connection, JSON encoding, the clock) is not computed here: the
    network's answers are read off a script ([World]) and the JSON codec is a
    parameter ([Encoding]), so every theorem holds for any answers and any
    codec.  Calls on a nil [*websocket.Conn] dereference the receiver inside
    the library and panic; that is the one library behaviour written out.

    Names are the source's.  Where two Go structs share a field name, or a
    field shares the name of its type, the later one carries a trailing
    underscore. *)

From Stdlib Require Import ZArith String List Bool Lia.
From stdpp Require Import base option list strings.
Import ListNotations.
Set Warnings "-register-all".
Local Open Scope string_scope.
Local Open Scope Z_scope.

(** ** Data model *)

(** [[]byte] and Go's [string] are both byte sequences. *)
Definition bytes := string.

(** [time.Duration] constants, in nanoseconds. *)
Definition Millisecond : Z := 1000000.
Definition Second : Z := 1000 * Millisecond.
Definition Minute : Z := 60 * Second.

(** [structures.Config], with the fields the source reads or sets. *)
Record Config := {
  PublicKey : string;
  PrivateKey : string;
  Name : string;
  Server : string;
}.

(** [VerifyData] and [Verify], as the composite literal in [GetServer]
    (main.go:173-183) gives their fields. *)
Record VerifyData := {
  MachineName : string;
  Cpus : Z;
  Memory : Z;
  Pm2Version : string;
  Hostname_ : string;
}.

Record Verify := {
  PublicId : string;
  PrivateId : string;
  Data_ : VerifyData;
}.

(** [VerifyResponse]: only the path [response.Endpoints.WS] (main.go:199) is
    consumed; it is a [string], since [GetServer] returns its address as a
    [*string]. *)
Record Endpoints_t := { WS : string }.
Record VerifyResponse := { Endpoints : Endpoints_t }.

(** A dynamically typed Go value ([interface{}]) as [json.Unmarshal] builds
    it in a [map[string]interface{}] and as the map literals of the
    dispatcher build it.  A [float64] is kept as its bit pattern: the code
    never computes with one.  A Go map is an association list read at its
    first binding. *)
Inductive value :=
| VNil
| VBool (b : bool)
| VFloat64 (bits : Z)
| VString (s : string)
| VSlice (l : list value)
| VMap (m : list (string * value)).

Definition gomap := list (string * value).

(** [m[k]] on a [map[string]interface{}]: the zero value [nil] when absent. *)
Fixpoint index (m : gomap) (k : string) : value :=
  match m with
  | [] => VNil
  | (k', v) :: m' => if String.eqb k' k then v else index m' k
  end.

(** [v == "lit"] for an interface value against a string constant: true only
    when the dynamic type is [string] and the contents agree. *)
Definition is_string (v : value) (lit : string) : bool :=
  match v with
  | VString s => String.eqb s lit
  | _ => false
  end.

(** [structures.Process] and [PayLoad], as the composite literal in [Send]
    (main.go:355-368) gives their fields. *)
Record Process := {
  PmID : Z;
  Process_Name : string;
  Process_Server : string;
}.

Record PayLoad := {
  At : Z;
  Process_ : Process;
  Data : value;
  Active : bool;
  ServerName_ : string;
  Protected : bool;
  RevCon : bool;
  InternalIP : string;
}.

(** What [Message.Payload], an [interface{}], holds. *)
Inductive payload :=
| PValue (v : value)
| PStruct (p : PayLoad).

(** [Message] (main.go:152-155). *)
Record Message := {
  Payload : payload;
  Channel : string;
}.

(** What the code hands to [json.Marshal]. *)
Inductive marshalled :=
| MVerify (v : Verify)
| MMessage (m : Message)
| MValue (v : value).

(** [encoding/json], as far as the transporter calls it.  [None] is a non-nil
    [error]. *)
Class Encoding := {
  json_Marshal : marshalled -> option bytes;
  (* json.Unmarshal(message, &dat) with dat a map[string]interface{} *)
  json_Unmarshal : bytes -> option gomap;
  (* json.Unmarshal(data, &response) with response a VerifyResponse *)
  json_Unmarshal_VerifyResponse : bytes -> option VerifyResponse;
}.

(** A websocket connection, named by a number. *)
Definition conn := nat.

Inductive messageType := TextMessage | PingMessage.

(** [*time.Ticker]: nil, or a ticker with its period. *)
Definition ticker := option Z.

(** [Transporter] (main.go:134-150).  The mutex [mu] has no field here: its
    [Lock] and [Unlock] calls are events of the trace. *)
Record Transporter := {
  Config_ : Config;
  Version : string;
  Hostname : string;
  ServerName : string;
  Node : string;
  ws : option conn;
  isConnected : bool;
  isHandling : bool;
  isConnecting : bool;
  isClosed : bool;
  wsNode : option string;
  heartbeatTicker : ticker;
  serverTicker : ticker;
}.

(** [NewTransporter] (main.go:157-170). *)
Definition NewTransporter (config : Config) (version hostname serverName node : string)
  : Transporter :=
  {| Config_ := config; Version := version; Hostname := hostname;
     ServerName := serverName; Node := node;
     ws := None;
     isConnected := false; isHandling := false;
     isConnecting := false; isClosed := false;
     wsNode := None; heartbeatTicker := None; serverTicker := None |}.

(** [structures.Action]: a name and an optional zero-argument callback
    returning a string, kept as the string it returns. *)
Record Action := {
  ActionName : string;
  Callback : option string;
}.

(** ** The world outside the transporter *)

(** [http.Post] followed by [ioutil.ReadAll] on the response body. *)
Inductive PostResult :=
| PostFails
| BodyUnreadable
| Body (data : bytes).

(** [ws.ReadMessage]: a message, an error, or a close frame from the peer
    (the close handler runs, then the read returns an error). *)
Inductive ReadResult :=
| ReadMessageOk (message : bytes)
| ReadError
| ReadPeerClose.

(** The scripted world: the clock, the host's facts, the registered actions,
    and the answers of the network in the order the calls are made.  A call
    made after its script has run out fails. *)
Record World := {
  clock : Z;                    (* time.Now().UnixNano() *)
  numCPU : Z;                   (* runtime.NumCPU() *)
  totalMem : Z;                 (* metrics.TotalMem() *)
  localIP : string;             (* metrics.LocalIP() *)
  actions : list Action;        (* the action registry of package services *)
  posts : list PostResult;
  dials : list (option conn);   (* websocket.DefaultDialer.Dial: None is an error *)
  writes : list bool;           (* ws.WriteMessage: true is a nil error *)
  reads : list ReadResult;
}.

(** Goroutines, by the point at which they are parked. *)
Inductive goroutine :=
| GRetryConnect       (* go func() { Sleep(10s); Connect() }, main.go:207-210 *)
| GRefreshStart       (* go func() { ... }, main.go:242-255, not yet run *)
| GRefreshLoop        (* the same, waiting on serverTicker.C *)
| GMessagesHandler    (* go MessagesHandler(), about to read *)
| GHeartbeatStart     (* go func() { ... }, main.go:263-278, not yet run *)
| GHeartbeatLoop      (* the same, waiting on heartbeatTicker.C *)
| GExited.

Inductive event :=
| EvPost (url contentType : string) (body : bytes)
| EvBodyClose
| EvDial (url : string) (headers : list (string * string))
| EvSetCloseHandler (c : conn)
| EvClose (c : conn)
| EvSetWriteDeadline (c : conn) (deadline : Z)
| EvWrite (c : conn) (mt : messageType) (data : bytes) (ok : bool)
| EvRead (c : conn)
| EvSleep (d : Z)
| EvLock
| EvUnlock
| EvLog (line : string).

Inductive panic_value :=
| NilDereference
| TypeAssertion
| JsonError.

(** The machine: the transporter, the world, what has happened so far, and
    the goroutines started so far. *)
Record State := {
  tp : Transporter;
  world : World;
  trace : list event;
  pool : list goroutine;
}.

(** How a call ends: it returns, the goroutine panics, or the model's
    recursion budget ran out before it returned. *)
Inductive outcome (A : Type) :=
| Done (a : A) (s : State)
| Panic (p : panic_value) (s : State)
| OutOfFuel (s : State).
Arguments Done {A} a s.
Arguments Panic {A} p s.
Arguments OutOfFuel {A} s.

Definition final {A} (o : outcome A) : State :=
  match o with
  | Done _ s | Panic _ s | OutOfFuel s => s
  end.

(** ** The state and panic monad *)

Definition M (A : Type) : Type := State -> outcome A.

Definition ret {A} (a : A) : M A := fun s => Done a s.

Definition bind {A B} (m : M A) (k : A -> M B) : M B :=
  fun s =>
    match m s with
    | Done a s' => k a s'
    | Panic p s' => Panic p s'
    | OutOfFuel s' => OutOfFuel s'
    end.

Declare Scope go_scope.
Delimit Scope go_scope with go.
Notation "x <- m ;; k" := (bind m (fun x => k))
  (at level 20, m at level 99, k at level 200, only parsing) : go_scope.
Notation "m ;; k" := (bind m (fun _ => k))
  (at level 100, k at level 200, right associativity, only parsing) : go_scope.
Local Open Scope go_scope.

Definition panic {A} (p : panic_value) : M A := fun s => Panic p s.
Definition out_of_fuel {A} : M A := fun s => OutOfFuel s.

Definition getT : M Transporter := fun s => Done (tp s) s.
Definition getW : M World := fun s => Done (world s) s.

Definition modifyT (f : Transporter -> Transporter) : M unit :=
  fun s => Done tt {| tp := f (tp s); world := world s; trace := trace s; pool := pool s |}.
Definition modifyW (f : World -> World) : M unit :=
  fun s => Done tt {| tp := tp s; world := f (world s); trace := trace s; pool := pool s |}.
Definition emit (e : event) : M unit :=
  fun s => Done tt {| tp := tp s; world := world s; trace := trace s ++ [e]; pool := pool s |}.
(** [go f()]: the goroutine is added to the pool, parked at its start. *)
Definition go (g : goroutine) : M unit :=
  fun s => Done tt {| tp := tp s; world := world s; trace := trace s; pool := pool s ++ [g] |}.

(** [defer f()]: [f] runs when the body returns and when it panics. *)
Definition defer {A} (deferred : M unit) (body : M A) : M A :=
  fun s =>
    match body s with
    | Done a s' => match deferred s' with
                   | Done _ s'' => Done a s''
                   | Panic p s'' => Panic p s''
                   | OutOfFuel s'' => OutOfFuel s''
                   end
    | Panic p s' => match deferred s' with
                    | Done _ s'' => Panic p s''
                    | Panic q s'' => Panic q s''
                    | OutOfFuel s'' => OutOfFuel s''
                    end
    | OutOfFuel s' => OutOfFuel s'
    end.

(** Field assignments. *)
Definition set_ws (c : option conn) (t : Transporter) : Transporter :=
  {| Config_ := Config_ t; Version := Version t; Hostname := Hostname t;
     ServerName := ServerName t; Node := Node t; ws := c;
     isConnected := isConnected t; isHandling := isHandling t;
     isConnecting := isConnecting t; isClosed := isClosed t;
     wsNode := wsNode t; heartbeatTicker := heartbeatTicker t;
     serverTicker := serverTicker t |}.
Definition set_isConnected (b : bool) (t : Transporter) : Transporter :=
  {| Config_ := Config_ t; Version := Version t; Hostname := Hostname t;
     ServerName := ServerName t; Node := Node t; ws := ws t;
     isConnected := b; isHandling := isHandling t;
     isConnecting := isConnecting t; isClosed := isClosed t;
     wsNode := wsNode t; heartbeatTicker := heartbeatTicker t;
     serverTicker := serverTicker t |}.
Definition set_isHandling (b : bool) (t : Transporter) : Transporter :=
  {| Config_ := Config_ t; Version := Version t; Hostname := Hostname t;
     ServerName := ServerName t; Node := Node t; ws := ws t;
     isConnected := isConnected t; isHandling := b;
     isConnecting := isConnecting t; isClosed := isClosed t;
     wsNode := wsNode t; heartbeatTicker := heartbeatTicker t;
     serverTicker := serverTicker t |}.
Definition set_isConnecting (b : bool) (t : Transporter) : Transporter :=
  {| Config_ := Config_ t; Version := Version t; Hostname := Hostname t;
     ServerName := ServerName t; Node := Node t; ws := ws t;
     isConnected := isConnected t; isHandling := isHandling t;
     isConnecting := b; isClosed := isClosed t;
     wsNode := wsNode t; heartbeatTicker := heartbeatTicker t;
     serverTicker := serverTicker t |}.
Definition set_isClosed (b : bool) (t : Transporter) : Transporter :=
  {| Config_ := Config_ t; Version := Version t; Hostname := Hostname t;
     ServerName := ServerName t; Node := Node t; ws := ws t;
     isConnected := isConnected t; isHandling := isHandling t;
     isConnecting := isConnecting t; isClosed := b;
     wsNode := wsNode t; heartbeatTicker := heartbeatTicker t;
     serverTicker := serverTicker t |}.
Definition set_wsNode (n : option string) (t : Transporter) : Transporter :=
  {| Config_ := Config_ t; Version := Version t; Hostname := Hostname t;
     ServerName := ServerName t; Node := Node t; ws := ws t;
     isConnected := isConnected t; isHandling := isHandling t;
     isConnecting := isConnecting t; isClosed := isClosed t;
     wsNode := n; heartbeatTicker := heartbeatTicker t;
     serverTicker := serverTicker t |}.
Definition set_heartbeatTicker (k : ticker) (t : Transporter) : Transporter :=
  {| Config_ := Config_ t; Version := Version t; Hostname := Hostname t;
     ServerName := ServerName t; Node := Node t; ws := ws t;
     isConnected := isConnected t; isHandling := isHandling t;
     isConnecting := isConnecting t; isClosed := isClosed t;
     wsNode := wsNode t; heartbeatTicker := k;
     serverTicker := serverTicker t |}.
Definition set_serverTicker (k : ticker) (t : Transporter) : Transporter :=
  {| Config_ := Config_ t; Version := Version t; Hostname := Hostname t;
     ServerName := ServerName t; Node := Node t; ws := ws t;
     isConnected := isConnected t; isHandling := isHandling t;
     isConnecting := isConnecting t; isClosed := isClosed t;
     wsNode := wsNode t; heartbeatTicker := heartbeatTicker t;
     serverTicker := k |}.

(** Consuming the world's scripts. *)
Definition set_clock (z : Z) (w : World) : World :=
  {| clock := z; numCPU := numCPU w; totalMem := totalMem w; localIP := localIP w;
     actions := actions w; posts := posts w; dials := dials w;
     writes := writes w; reads := reads w |}.
Definition set_posts (l : list PostResult) (w : World) : World :=
  {| clock := clock w; numCPU := numCPU w; totalMem := totalMem w; localIP := localIP w;
     actions := actions w; posts := l; dials := dials w;
     writes := writes w; reads := reads w |}.
Definition set_dials (l : list (option conn)) (w : World) : World :=
  {| clock := clock w; numCPU := numCPU w; totalMem := totalMem w; localIP := localIP w;
     actions := actions w; posts := posts w; dials := l;
     writes := writes w; reads := reads w |}.
Definition set_writes (l : list bool) (w : World) : World :=
  {| clock := clock w; numCPU := numCPU w; totalMem := totalMem w; localIP := localIP w;
     actions := actions w; posts := posts w; dials := dials w;
     writes := l; reads := reads w |}.
Definition set_reads (l : list ReadResult) (w : World) : World :=
  {| clock := clock w; numCPU := numCPU w; totalMem := totalMem w; localIP := localIP w;
     actions := actions w; posts := posts w; dials := dials w;
     writes := writes w; reads := l |}.

(** ** The library calls, against the script *)

Definition Sleep (d : Z) : M unit :=
  emit (EvSleep d);;
  modifyW (fun w => set_clock (clock w + d) w).

(** [http.Post(url, contentType, body)] and [ioutil.ReadAll(res.Body)]. *)
Definition http_Post (url contentType : string) (body : bytes) : M PostResult :=
  emit (EvPost url contentType body);;
  w <- getW;;
  match posts w with
  | [] => ret PostFails
  | r :: rest => modifyW (set_posts rest);; ret r
  end.

(** [websocket.DefaultDialer.Dial(url, headers)]. *)
Definition websocket_Dial (url : string) (headers : list (string * string))
  : M (option conn) :=
  emit (EvDial url headers);;
  w <- getW;;
  match dials w with
  | [] => ret None
  | r :: rest => modifyW (set_dials rest);; ret r
  end.

(** A method of [*websocket.Conn] called on the transporter's [ws] field:
    the receiver is dereferenced by the library. *)
Definition with_ws {A} (k : conn -> M A) : M A :=
  t <- getT;;
  match ws t with
  | None => panic NilDereference
  | Some c => k c
  end.

(** [transporter.ws.Close()]; the returned error is dropped by the caller. *)
Definition ws_Close : M unit :=
  with_ws (fun c => emit (EvClose c)).

(** [transporter.ws.SetWriteDeadline(time.Now().Add(d))]. *)
Definition ws_SetWriteDeadline (d : Z) : M unit :=
  with_ws (fun c => w <- getW;; emit (EvSetWriteDeadline c (clock w + d))).

(** [transporter.ws.WriteMessage(mt, data)]: [true] when the error is nil. *)
Definition ws_WriteMessage (mt : messageType) (data : bytes) : M bool :=
  with_ws (fun c =>
    w <- getW;;
    match writes w with
    | [] => emit (EvWrite c mt data false);; ret false
    | ok :: rest => modifyW (set_writes rest);; emit (EvWrite c mt data ok);; ret ok
    end).

(** [transporter.ws.ReadMessage()]: [Some message], or [None] for an error.
    A close frame from the peer runs the close handler installed by
    [Connect] (main.go:228-231), which sets [isClosed], before the read
    returns its error. *)
Definition ws_ReadMessage : M (option bytes) :=
  with_ws (fun c =>
    emit (EvRead c);;
    w <- getW;;
    match reads w with
    | [] => ret None
    | r :: rest =>
        modifyW (set_reads rest);;
        match r with
        | ReadMessageOk message => ret (Some message)
        | ReadError => ret None
        | ReadPeerClose => modifyT (set_isClosed true);; ret None
        end
    end).

Definition Lock : M unit := emit EvLock.
Definition Unlock : M unit := emit EvUnlock.

(** ** The transporter's methods *)

Inductive loop := Continue | Return.

Section Transport.
Context `{Encoding}.

(** [GetServer] (main.go:172-200). *)
Definition GetServer : M (option string) :=
  t <- getT;;
  w <- getW;;
  let verify :=
    {| PublicId := PublicKey (Config_ t);
       PrivateId := PrivateKey (Config_ t);
       Data_ := {| MachineName := ServerName t;
                   Cpus := numCPU w;
                   Memory := totalMem w;
                   Pm2Version := Version t;
                   Hostname_ := Hostname t |} |} in
  (* jsonValue, _ := json.Marshal(verify) *)
  let jsonValue := default "" (json_Marshal (MVerify verify)) in
  res <- http_Post (String.append "https://" (String.append (Node t) "/api/node/verifyPM2"))
                   "application/json" jsonValue;;
  match res with
  | PostFails => ret None
  | BodyUnreadable => ret None
  | Body data =>
      emit EvBodyClose;;
      match json_Unmarshal_VerifyResponse data with
      | None => ret None
      | Some response => ret (Some (WS (Endpoints response)))
      end
  end.

Definition handshake_headers (t : Transporter) : list (string * string) :=
  [("X-KM-PUBLIC", PublicKey (Config_ t));
   ("X-KM-SECRET", PrivateKey (Config_ t));
   ("X-KM-SERVER", ServerName t);
   ("X-PM2-VERSION", Version t);
   ("X-PROTOCOL-VERSION", "1")].

(** [CloseAndReconnect] (main.go:372-383), with the call to [Connect] it ends
    in as an argument: the two methods call each other. *)
Definition CloseAndReconnect_with (Connect : M unit) : M unit :=
  t <- getT;;
  if isConnecting t then ret tt
  else
    (if negb (isClosed t) then ws_Close else ret tt);;
    modifyT (set_isConnected false);;
    modifyT (set_isConnecting true);;
    Connect.

(** [SetHandlers] (main.go:258-279): the two goroutines are started, their
    bodies are [MessagesHandler_iter], [heartbeat_start] and
    [heartbeat_tick] below. *)
Definition SetHandlers : M unit :=
  modifyT (set_isHandling true);;
  go GMessagesHandler;;
  go GHeartbeatStart.

(** [Connect] (main.go:202-256).  [fuel] bounds the depth of the calls
    Connect -> CloseAndReconnect -> Connect, which Go does not bound. *)
Fixpoint Connect (fuel : nat) : M unit :=
  match fuel with
  | O => out_of_fuel
  | S fuel' =>
      t <- getT;;
      (match wsNode t with
       | None => srv <- GetServer;; modifyT (set_wsNode srv)
       | Some _ => ret tt
       end);;
      t <- getT;;
      match wsNode t with
      | None => go GRetryConnect
      | Some node =>
          r <- websocket_Dial node (handshake_headers t);;
          match r with
          | None =>
              Sleep (2 * Second);;
              modifyT (set_isConnecting false);;
              CloseAndReconnect_with (Connect fuel')
          | Some c =>
              emit (EvSetCloseHandler c);;
              modifyT (set_isConnected true);;
              modifyT (set_isConnecting false);;
              modifyT (set_ws (Some c));;
              t <- getT;;
              (if negb (isHandling t) then SetHandlers else ret tt);;
              go GRefreshStart
          end
      end
  end.

Definition CloseAndReconnect (fuel : nat) : M unit :=
  CloseAndReconnect_with (Connect fuel).

(** [SendJson] (main.go:333-350). *)
Definition SendJson (fuel : nat) (msg : marshalled) : M unit :=
  match json_Marshal msg with
  | None => ret tt
  | Some b =>
      Lock;;
      defer Unlock
        (t <- getT;;
         if negb (isConnected t) then ret tt
         else
           ws_SetWriteDeadline (30 * Second);;
           ok <- ws_WriteMessage TextMessage b;;
           if ok then ret tt else CloseAndReconnect fuel)
  end.

(** The envelope [Send] builds (main.go:353-369).  [At] is
    [time.Now().UnixNano() / int64(time.Millisecond)], an [int64] division. *)
Definition envelope (t : Transporter) (w : World) (channel : string) (data : value)
  : Message :=
  {| Channel := channel;
     Payload := PStruct
       {| At := Z.quot (clock w) Millisecond;
          Process_ := {| PmID := 0;
                         Process_Name := Name (Config_ t);
                         Process_Server := ServerName t |};
          Data := data;
          Active := true;
          ServerName_ := ServerName t;
          Protected := false;
          RevCon := true;
          InternalIP := localIP w |} |}.

(** [Send] (main.go:352-370). *)
Definition Send (fuel : nat) (channel : string) (data : value) : M unit :=
  t <- getT;;
  w <- getW;;
  SendJson fuel (MMessage (envelope t w channel data)).

(** Modelled from the spec: [services.CallAction] and the action registry
    are not among the sources.  The spec has the dispatcher look the action
    up by name and invoke its callback synchronously, callback absence
    yielding an empty result and not a fault (4.5), an unregistered name
    likewise (8). *)
Definition CallAction (registry : list Action) (name : string) (payload : gomap)
  : value :=
  match find (fun a => String.eqb (ActionName a) name) registry with
  | Some a => match Callback a with
              | Some r => VString r
              | None => VNil
              end
  | None => VNil
  end.

(** The reply to [startLogging] (main.go:317-324). *)
Definition startLogging_result : value :=
  VMap [("channel", VString "trigger:pm2:result");
        ("payload", VMap [("ret", VMap [("err", VNil)])])].

(** One turn of the loop of [MessagesHandler] (main.go:282-330): one frame
    read and dispatched. *)
Definition MessagesHandler_iter (fuel : nat) : M loop :=
  r <- ws_ReadMessage;;
  match r with
  | None =>
      modifyT (set_isHandling false);;
      CloseAndReconnect fuel;;
      ret Return
  | Some message =>
      match json_Unmarshal message with
      | None => panic JsonError
      | Some dat =>
          if is_string (index dat "channel") "trigger:action" then
            match index dat "payload" with
            | VMap payload =>
                let name := index payload "action_name" in
                match name with
                | VString n =>
                    w <- getW;;
                    let response := CallAction (actions w) n payload in
                    Send fuel "trigger:action:success"
                      (VMap [("success", VBool true);
                             ("id", index payload "process_id");
                             ("action_name", name)]);;
                    Send fuel "axm:reply"
                      (VMap [("action_name", name);
                             ("return", response)]);;
                    ret Continue
                | _ => panic TypeAssertion
                end
            | _ => panic TypeAssertion
            end
          else if is_string (index dat "channel") "trigger:pm2:action" then
            match index dat "payload" with
            | VMap payload =>
                if is_string (index payload "method_name") "startLogging"
                then SendJson fuel (MValue startLogging_result);; ret Continue
                else ret Continue
            | _ => panic TypeAssertion
            end
          else
            match index dat "channel" with
            | VString ch =>
                emit (EvLog (String.append "msg not registered: " ch));;
                ret Continue
            | _ => panic TypeAssertion
            end
      end
  end.

(** [MessagesHandler]: the loop, for at most [fuel] frames. *)
Fixpoint MessagesHandler (fuel : nat) : M unit :=
  match fuel with
  | O => out_of_fuel
  | S fuel' =>
      c <- MessagesHandler_iter fuel';;
      match c with
      | Continue => MessagesHandler fuel'
      | Return => ret tt
      end
  end.

(** The heartbeat goroutine (main.go:263-278): its prologue, and one turn of
    its loop once the ticker has fired. *)
Definition heartbeat_start : M loop :=
  t <- getT;;
  match heartbeatTicker t with
  | Some _ => ret Return
  | None => modifyT (set_heartbeatTicker (Some (5 * Second)));; ret Continue
  end.

Definition heartbeat_tick (fuel : nat) : M loop :=
  Lock;;
  sent <- ws_WriteMessage PingMessage "";;
  Unlock;;
  if sent then ret Continue
  else CloseAndReconnect fuel;; ret Return.

(** The endpoint refresh goroutine (main.go:242-255): its prologue, and one
    turn of its loop once the ticker has fired.  [*srv] and
    [*transporter.wsNode] are dereferenced left to right. *)
Definition refresh_start : M loop :=
  t <- getT;;
  match serverTicker t with
  | Some _ => ret Return
  | None => modifyT (set_serverTicker (Some (10 * Minute)));; ret Continue
  end.

Definition refresh_tick (fuel : nat) : M unit :=
  srv <- GetServer;;
  t <- getT;;
  match srv with
  | None => panic NilDereference
  | Some fresh =>
      match wsNode t with
      | None => panic NilDereference
      | Some cached =>
          if negb (String.eqb fresh cached)
          then modifyT (set_wsNode srv);; CloseAndReconnect fuel
          else ret tt
      end
  end.

(** [IsConnected] and [GetWsNode] (main.go:385-391). *)
Definition IsConnected (t : Transporter) : bool := isConnected t.
Definition GetWsNode (t : Transporter) : option string := wsNode t.

(** ** Goroutines *)

(** A goroutine runs from the point where it is parked to the next one; the
    result is where it parks again. *)
Definition run_goroutine (fuel : nat) (g : goroutine) : M goroutine :=
  match g with
  | GRetryConnect => Sleep (10 * Second);; Connect fuel;; ret GExited
  | GRefreshStart =>
      c <- refresh_start;;
      ret (match c with Continue => GRefreshLoop | Return => GExited end)
  | GRefreshLoop => refresh_tick fuel;; ret GRefreshLoop
  | GMessagesHandler =>
      c <- MessagesHandler_iter fuel;;
      ret (match c with Continue => GMessagesHandler | Return => GExited end)
  | GHeartbeatStart =>
      c <- heartbeat_start;;
      ret (match c with Continue => GHeartbeatLoop | Return => GExited end)
  | GHeartbeatLoop =>
      c <- heartbeat_tick fuel;;
      ret (match c with Continue => GHeartbeatLoop | Return => GExited end)
  | GExited => ret GExited
  end.

Definition set_pool (i : nat) (g : goroutine) : M unit :=
  fun s => Done tt {| tp := tp s; world := world s; trace := trace s;
                      pool := <[i := g]> (pool s) |}.

(** The scheduler lets goroutine [i] of the pool run one stretch. *)
Definition step (fuel : nat) (i : nat) : M unit :=
  fun s =>
    match pool s !! i with
    | None => Done tt s
    | Some g => (g' <- run_goroutine fuel g;; set_pool i g') s
    end.

Fixpoint run (fuel : nat) (schedule : list nat) : M unit :=
  match schedule with
  | [] => ret tt
  | i :: rest => step fuel i;; run fuel rest
  end.

(** The heartbeat loops alive in a pool. *)
Definition is_heartbeat_loop (g : goroutine) : bool :=
  match g with GHeartbeatLoop => true | _ => false end.

Definition active_heartbeats (s : State) : nat :=
  length (List.filter is_heartbeat_loop (pool s)).

End Transport.


(** ** Reading a state and a trace *)

Local Open Scope list_scope.

(** The HTTP exchanges of a trace. *)
Definition is_post (e : event) : bool :=
  match e with EvPost _ _ _ => true | _ => false end.

Definition posts_made (tr : list event) : nat :=
  length (List.filter is_post tr).

Definition is_dial (e : event) : bool :=
  match e with EvDial _ _ => true | _ => false end.

Definition is_sleep (e : event) : bool :=
  match e with EvSleep _ => true | _ => false end.



(** The text frames of a trace that went out on the stream, oldest first. *)
Fixpoint sent_frames (tr : list event) : list bytes :=
  match tr with
  | [] => []
  | EvWrite _ TextMessage data true :: tr' => data :: sent_frames tr'
  | _ :: tr' => sent_frames tr'
  end.

(** A state with one of its components replaced. *)
Definition with_tp (f : Transporter -> Transporter) (s : State) : State :=
  {| tp := f (tp s); world := world s; trace := trace s; pool := pool s |}.
Definition with_world (f : World -> World) (s : State) : State :=
  {| tp := tp s; world := f (world s); trace := trace s; pool := pool s |}.
Definition with_events (ev : list event) (s : State) : State :=
  {| tp := tp s; world := world s; trace := trace s ++ ev; pool := pool s |}.
Definition with_goroutine (g : goroutine) (s : State) : State :=
  {| tp := tp s; world := world s; trace := trace s; pool := pool s ++ [g] |}.

(** The request [GetServer] posts from a state. *)
Definition verify_request `{Encoding} (s : State) : event :=
  EvPost (String.append "https://" (String.append (Node (tp s)) "/api/node/verifyPM2"))
         "application/json"
         (default ""
            (json_Marshal (MVerify
               {| PublicId := PublicKey (Config_ (tp s));
                  PrivateId := PrivateKey (Config_ (tp s));
                  Data_ := {| MachineName := ServerName (tp s);
                              Cpus := numCPU (world s);
                              Memory := totalMem (world s);
                              Pm2Version := Version (tp s);
                              Hostname_ := Hostname (tp s) |} |}))).

(** The [Data] an envelope built by [Send] carries. *)
Definition envelope_data (m : Message) : value :=
  match Payload m with
  | PStruct p => Data p
  | PValue v => v
  end.

(** The field of that name in a value that is a map. *)
Definition field (v : value) (k : string) : value :=
  match v with
  | VMap m => index m k
  | _ => VNil
  end.

(** ** Properties of states

    The properties the proofs carry through the methods. *)

(** The fields [CloseAndReconnect] sets before it calls [Connect]. *)
Definition mark_reconnecting (t : Transporter) : Transporter :=
  set_isConnecting true (set_isConnected false t).

Definition keeps_heartbeatTicker (f : Transporter -> Transporter) : Prop :=
  forall t, heartbeatTicker t <> None -> heartbeatTicker (f t) <> None.

Class Invariant (P : State -> Prop) : Prop := {
  inv_tp : forall f s, keeps_heartbeatTicker f -> P s -> P (with_tp f s);
  inv_world : forall f s, P s -> P (with_world f s);
  inv_events : forall ev s, P s -> P (with_events ev s);
  inv_go : forall g s, g <> GHeartbeatLoop -> P s -> P (with_goroutine g s);
}.

Definition preserves (P : State -> Prop) {A} (m : M A) : Prop :=
  forall s, P s -> P (final (m s)).

(** Every call only adds to the trace. *)
Definition extends (tr : list event) (s : State) : Prop :=
  exists ev, trace s = tr ++ ev.

(** What a successful read leaves behind. *)
Definition after_read (c : conn) (rest : list ReadResult) (s : State) : State :=
  with_world (set_reads rest) (with_events [EvRead c] s).

(** The heartbeat has run and ended: its ticker is set, and no goroutine is
    in the heartbeat loop. *)
Definition heartbeat_stopped (s : State) : Prop :=
  heartbeatTicker (tp s) <> None /\ active_heartbeats s = 0%nat.

(** The ticker of the heartbeat, once set, stays set. *)
Definition ticker_set (s : State) : Prop :=
  heartbeatTicker (tp s) <> None.

(** The pool only grows, and never by a running heartbeat loop. *)
Definition pool_extends (l : list goroutine) (s : State) : Prop :=
  exists extra,
    pool s = l ++ extra /\
    length (List.filter is_heartbeat_loop extra) = 0%nat.

(** ** A concrete codec, world and transporter

    Used to run the model on examples.  The codec knows three bodies of the
    discovery service and one inbound frame; everything else fails to
    decode. *)

Definition sample_action_frame : gomap :=
  [("channel", VString "trigger:action");
   ("payload", VMap [("action_name", VString "Test");
                     ("process_id", VFloat64 0)])].

Definition sample_encoding : Encoding :=
  {| json_Marshal m :=
       match m with
       | MVerify _ => Some "verify"
       | MMessage m => Some (String.append "message on " (Channel m))
       | MValue _ => Some "value"
       end;
     json_Unmarshal b :=
       if String.eqb b "trigger Test" then Some sample_action_frame
       else None;
     json_Unmarshal_VerifyResponse b :=
       if String.eqb b "endpoints.ws = wss://a" then Some {| Endpoints := {| WS := "wss://a" |} |}
       else if String.eqb b "endpoints.ws = wss://b" then Some {| Endpoints := {| WS := "wss://b" |} |}
       else if String.eqb b "no endpoints" then Some {| Endpoints := {| WS := "" |} |}
       else None |}.

Definition sample_config : Config :=
  {| PublicKey := "9nc25845w31vqeq";
     PrivateKey := "1e34mwmtaid0pr7";
     Name := "Golang App";
     Server := "omicron.keymetrics.io" |}.

Definition sample_transporter : Transporter :=
  NewTransporter sample_config "0.0.1" "host" "Golang App" "omicron.keymetrics.io".

Definition sample_actions : list Action :=
  [ {| ActionName := "Test"; Callback := Some "I am the test answer" |};
    {| ActionName := "Tric"; Callback := None |} ].

(** A world in which every network call fails. *)
Definition offline : World :=
  {| clock := 1500000000000000000; numCPU := 4; totalMem := 8589934592;
     localIP := "10.0.0.7"; actions := sample_actions;
     posts := []; dials := []; writes := []; reads := [] |}.

Definition start (t : Transporter) (w : World) : State :=
  {| tp := t; world := w; trace := []; pool := [] |}.

(** The transporter once connected on stream 1 to [wss://a]. *)
Definition connected_transporter : Transporter :=
  set_wsNode (Some "wss://a")
    (set_isHandling true (set_isConnected true (set_ws (Some 1%nat) sample_transporter))).

Definition connected_state (w : World) : State :=
  {| tp := set_serverTicker (Some (10 * Minute))
             (set_heartbeatTicker (Some (5 * Second)) connected_transporter);
     world := w;
     trace := [];
     pool := [GMessagesHandler; GHeartbeatLoop; GRefreshLoop] |}.

(** The discovery service is down. *)
Definition discovery_down : World := set_posts [PostFails] offline.


(** The discovery service answers, and the dial fails. *)
Definition dial_refused : World :=
  set_dials [None] (set_posts [Body "endpoints.ws = wss://a"] offline).

(** The collector sends a [trigger:action] frame for "Test", and the stream
    takes two writes. *)
Definition trigger_Test : World :=
  set_writes [true; true] (set_reads [ReadMessageOk "trigger Test"] offline).

(** The collector sends a frame that is not JSON. *)
Definition malformed_frame : World := set_reads [ReadMessageOk "not json"] offline.

(** The ping fails, and the dial that follows succeeds on stream 2. *)
Definition ping_fails_redial_succeeds : World :=
  set_dials [Some 2%nat] (set_writes [false] offline).

(** ** The metric registry of package services (main.go:103-116) *)

From stdpp Require Import gmap.

(** [structures.Metric] and its method [Get] are not among the sources: the
    type, the [Name] field the registry reads and the effect of [Get] on the
    metric it is called on are parameters. *)
Class MetricType := {
  Metric : Type;
  Metric_Name : Metric -> string;
  Metric_Get : Metric -> Metric;
}.

(** A [*structures.Metric]: nil, or the address of a metric. *)
Definition addr := nat.
Definition ptr := option addr.

Section Registry.
Context `{MetricType}.

(** The package variable [metrics] and the metrics its pointers refer to. *)
Record Registry := {
  metrics : list ptr;
  heap : addr -> Metric;
}.

(** [AddMetric] (main.go:105-107). *)
Definition AddMetric (metric : ptr) (r : Registry) : Registry :=
  {| metrics := metrics r ++ [metric]; heap := heap r |}.

(** [metric.Get()] through the pointer: the metric at that address is
    updated in place. *)
Definition get_at (a : addr) (h : addr -> Metric) : addr -> Metric :=
  fun b => if Nat.eqb b a then Metric_Get (h b) else h b.

(** The loop of [GetMetricsAsMap] (main.go:111-114) over the rest of the
    slice.  [None] is the panic of [metric.Name] on a nil pointer. *)
Fixpoint GetMetricsAsMap_range (l : list ptr) (h : addr -> Metric)
    (m : gmap string addr) : option (gmap string addr * (addr -> Metric)) :=
  match l with
  | [] => Some (m, h)
  | None :: _ => None
  | Some a :: rest =>
      let h' := get_at a h in
      GetMetricsAsMap_range rest h' (<[Metric_Name (h' a) := a]> m)
  end.

(** [GetMetricsAsMap] (main.go:109-116): the map, and the registry after the
    calls of [Get]. *)
Definition GetMetricsAsMap (r : Registry) : option (gmap string addr * Registry) :=
  match GetMetricsAsMap_range (metrics r) (heap r) ∅ with
  | Some (m, h) => Some (m, {| metrics := metrics r; heap := h |})
  | None => None
  end.

(** The addresses registered with a name, oldest first. *)
Definition registered_as (n : string) (h : addr -> Metric) (l : list addr)
  : list addr :=
  List.filter (fun a => String.eqb (Metric_Name (h a)) n) l.

(** How many times an address is registered. *)
Definition registrations (a : addr) (l : list addr) : nat :=
  length (List.filter (Nat.eqb a) l).

End Registry.

(** A metric type for examples: a name and a counter that [Get] bumps. *)
Definition sample_metrics : MetricType :=
  {| Metric := string * nat;
     Metric_Name := fst;
     Metric_Get := fun x => (fst x, S (snd x)) |}.

(** The registry of [main] (main.go:29-36) once "nbreq" is registered a
    second time at another address. *)
Definition sample_heap : addr -> string * nat :=
  fun a => match a with
           | 0%nat => ("test", 0%nat)
           | _ => ("nbreq", 0%nat)
           end.

Definition sample_registry : @Registry sample_metrics :=
  @Build_Registry sample_metrics [Some 0%nat; Some 1%nat; Some 2%nat] sample_heap.

(** ** Reading more of a state and a trace *)

Definition is_close (e : event) : bool :=
  match e with EvClose _ => true | _ => false end.

Definition is_log (e : event) : bool :=
  match e with EvLog _ => true | _ => false end.

(** The fields [Connect] sets once the dial has succeeded (main.go:233-236). *)
Definition connected_on (c : conn) (t : Transporter) : Transporter :=
  set_ws (Some c) (set_isConnecting false (set_isConnected true t)).

(** The state after [if !isHandling { SetHandlers() }] (main.go:238-240). *)
Definition handlers_started (s : State) : State :=
  if isHandling (tp s) then s
  else with_goroutine GHeartbeatStart
         (with_goroutine GMessagesHandler (with_tp (set_isHandling true) s)).

(** The state [Connect] leaves when it dials [node] from [s] and gets
    stream [c]. *)
Definition dialled (node : string) (c : conn) (rest : list (option conn))
    (s : State) : State :=
  with_goroutine GRefreshStart
    (handlers_started
       (with_tp (connected_on c)
          (with_events [EvSetCloseHandler c]
             (with_world (set_dials rest)
                (with_events [EvDial node (handshake_headers (tp s))] s))))).

(** What one failed dial adds to the trace of a transporter holding stream
    [c0]: the dial, the two seconds of sleep, and the [Close] of the stream
    unless the peer closed it. *)
Definition failed_attempt (node : string) (c0 : conn) (t : Transporter)
  : list event :=
  [EvDial node (handshake_headers t); EvSleep (2 * Second)]
  ++ (if isClosed t then [] else [EvClose c0]).

(** The dispatchers parked in a pool. *)
Definition is_dispatcher (g : goroutine) : bool :=
  match g with GMessagesHandler => true | _ => false end.

Definition active_dispatchers (s : State) : nat :=
  length (List.filter is_dispatcher (pool s)).

(** The stream is live: connected on [c], nothing reconnecting, the
    endpoint [node] cached. *)
Definition live_on (c : conn) (node : string) (t : Transporter) : Prop :=
  ws t = Some c /\ isConnected t = true /\ isConnecting t = false /\
  wsNode t = Some node.

(** More worlds for examples. *)

(** Two dials fail, the third succeeds on stream 2. *)
Definition two_dials_refused : World :=
  set_dials [None; None; Some 2%nat] offline.

(** The discovery service answers with [wss://a], and the dial succeeds. *)
Definition collector_up : World :=
  set_dials [Some 1%nat] (set_posts [Body "endpoints.ws = wss://a"] offline).

(** The discovery service now answers with [wss://b]; the dial succeeds. *)
Definition collector_moved : World :=
  set_dials [Some 2%nat] (set_posts [Body "endpoints.ws = wss://b"] offline).

(** The discovery service still answers with [wss://a]. *)
Definition collector_stays : World :=
  set_posts [Body "endpoints.ws = wss://a"] offline.

(** The read fails, and the dial that follows succeeds on stream 2. *)
Definition read_fails_redial_succeeds : World :=
  set_dials [Some 2%nat] (set_reads [ReadError] offline).

(** The peer closes the stream, and the dial that follows succeeds. *)
Definition peer_closes_redial_succeeds : World :=
  set_dials [Some 2%nat] (set_reads [ReadPeerClose] offline).

(** The write fails, and the dial that follows succeeds on stream 2. *)
Definition write_fails_redial_succeeds : World :=
  set_dials [Some 2%nat] (set_writes [false] offline).

(** The state in which [Connect] calls itself again after a failed dial of
    [node], on a transporter that holds stream [c0]: the guard was cleared
    and set again, two seconds have passed. *)
Definition redial_state (node : string) (c0 : conn) (rest : list (option conn))
    (s : State) : State :=
  {| tp := mark_reconnecting (set_isConnecting false (tp s));
     world := set_clock (clock (world s) + 2 * Second) (set_dials rest (world s));
     trace := trace s ++ failed_attempt node c0 (tp s);
     pool := pool s |}.

(** ** The transporter over time *)

(** What happens to a running transporter: the scheduler gives a goroutine
    of the pool a turn, or the host application calls [Send]. *)
Inductive action :=
| Turn (i : nat)
| HostSend (channel : string) (data : value).

Definition perform `{Encoding} (fuel : nat) (a : action) : M unit :=
  match a with
  | Turn i => step fuel i
  | HostSend channel data => Send fuel channel data
  end.

Fixpoint perform_all `{Encoding} (fuel : nat) (l : list action) : M unit :=
  match l with
  | [] => ret tt
  | a :: rest => bind (perform fuel a) (fun _ => perform_all fuel rest)
  end.

(** No two heartbeat loops, and none before the ticker is created. *)
Definition at_most_one_heartbeat (s : State) : Prop :=
  (active_heartbeats s <= 1)%nat /\
  (heartbeatTicker (tp s) = None -> active_heartbeats s = 0%nat).

(** Properties of states closed under the assignments, events and
    goroutines of a given kind, after the pattern of [Invariant]. *)
Class Closed (okT : (Transporter -> Transporter) -> Prop)
    (okE : event -> Prop) (okG : goroutine -> Prop)
    (P : State -> Prop) : Prop := {
  closed_tp : forall f s, okT f -> P s -> P (with_tp f s);
  closed_world : forall f s, P s -> P (with_world f s);
  closed_event : forall e s, okE e -> P s -> P (with_events [e] s);
  closed_go : forall g s, okG g -> P s -> P (with_goroutine g s);
}.

(** An assignment that neither clears [isClosed] nor clears
    [serverTicker]. *)
Definition sticky (f : Transporter -> Transporter) : Prop :=
  (forall t, isClosed t = true -> isClosed (f t) = true) /\
  (forall t, serverTicker t <> None -> serverTicker (f t) <> None).

Definition not_refresh_loop (g : goroutine) : Prop := g <> GRefreshLoop.

Definition any_event (e : event) : Prop := True.

Definition not_close (e : event) : Prop := is_close e = false.

(** The refresh loops alive in a pool. *)
Definition is_refresh_loop (g : goroutine) : bool :=
  match g with GRefreshLoop => true | _ => false end.

Definition active_refreshes (s : State) : nat :=
  length (List.filter is_refresh_loop (pool s)).

(** No two refresh loops, and none before the ticker is created. *)
Definition at_most_one_refresh (s : State) : Prop :=
  (active_refreshes s <= 1)%nat /\
  (serverTicker (tp s) = None -> active_refreshes s = 0%nat).

(** The peer has closed a stream, and the calls of [Close] made so far are
    [closes]. *)
Definition closed_by_peer (closes : list event) (s : State) : Prop :=
  isClosed (tp s) = true /\
  List.filter is_close (trace s) = closes.

(** A codec for examples that knows more inbound frames. *)
Definition sample_frames : Encoding :=
  {| json_Marshal := @json_Marshal sample_encoding;
     json_Unmarshal b :=
       if String.eqb b "custom channel" then
         Some [("channel", VString "custom:event")]
       else if String.eqb b "empty object" then
         Some []
       else if String.eqb b "trigger with a string payload" then
         Some [("channel", VString "trigger:action");
               ("payload", VString "Test")]
       else if String.eqb b "trigger with a numeric name" then
         Some [("channel", VString "trigger:action");
               ("payload", VMap [("action_name", VFloat64 0)])]
       else if String.eqb b "start logging" then
         Some [("channel", VString "trigger:pm2:action");
               ("payload", VMap [("method_name", VString "startLogging")])]
       else None;
     json_Unmarshal_VerifyResponse := @json_Unmarshal_VerifyResponse sample_encoding |}.

(** The collector sends one frame, and the stream takes one write. *)
Definition one_frame (message : bytes) : World :=
  set_writes [true] (set_reads [ReadMessageOk message] offline).

(** The peer closes the stream, and the next two dials succeed. *)
Definition peer_closes_twice_redialled : World :=
  set_dials [Some 2%nat; Some 3%nat] (set_reads [ReadPeerClose] offline).

(** The retry goroutines of [Connect] (main.go:207-210) waiting in a pool. *)
Definition is_retry (g : goroutine) : bool :=
  match g with GRetryConnect => true | _ => false end.

Definition pending_retries (s : State) : nat :=
  length (List.filter is_retry (pool s)).

(** An assignment that leaves a cached endpoint cached. *)
Definition keeps_endpoint (f : Transporter -> Transporter) : Prop :=
  forall t, wsNode t <> None -> wsNode (f t) <> None.

Definition not_retry (g : goroutine) : Prop := g <> GRetryConnect.

(** An endpoint is cached and [n] retry goroutines are waiting. *)
Definition resolved (n : nat) (s : State) : Prop :=
  wsNode (tp s) <> None /\ pending_retries s = n.

(** No endpoint was ever cached: the transporter is disconnected and has
    started nothing but retry goroutines, of which at most one is waiting. *)
Definition unresolved (s : State) : Prop :=
  wsNode (tp s) = None /\
  isConnected (tp s) = false /\
  Forall (fun g => g = GExited \/ g = GRetryConnect) (pool s) /\
  (pending_retries s <= 1)%nat.

Definition at_most_one_retry (s : State) : Prop :=
  unresolved s \/ (wsNode (tp s) <> None /\ (pending_retries s <= 1)%nat).

(** The host sends the messages of a list, one call of [Send] after the
    other. *)
Definition host_sends (msgs : list (string * value)) : list action :=
  map (fun m => HostSend (fst m) (snd m)) msgs.

(** The frame [Send] writes for a message from a state. *)
Definition frame_of `{Encoding} (s : State) (m : string * value) (b : bytes)
  : Prop :=
  json_Marshal (MMessage (envelope (tp s) (world s) (fst m) (snd m))) = Some b.

(** The stream takes two writes. *)
Definition two_writes : World := set_writes [true; true] offline.

(** * Properties *)

Ltac run_monad :=
  unfold bind, ret, panic, out_of_fuel, getT, getW, modifyT, modifyW, emit, go,
    Lock, Unlock, with_ws, defer; cbn.

Lemma State_eta (s : State) :
  {| tp := tp s; world := world s; trace := trace s; pool := pool s |} = s.
Proof. now destruct s. Qed.

Lemma with_events_nil (s : State) : with_events [] s = s.
Proof. unfold with_events. rewrite app_nil_r. apply State_eta. Qed.

Lemma set_wsNode_same (t : Transporter) (o : option string) :
  wsNode t = o -> set_wsNode o t = t.
Proof. destruct t; cbn; intros ->; reflexivity. Qed.

Lemma sent_frames_app (tr1 tr2 : list event) :
  sent_frames (tr1 ++ tr2) = (sent_frames tr1 ++ sent_frames tr2)%list.
Proof.
  induction tr1 as [|e tr1 IH]; [reflexivity|].
  destruct e; cbn; try assumption.
  destruct mt, ok; cbn; try assumption. now rewrite IH.
Qed.

Arguments posts_made : simpl never.

Lemma posts_made_app (tr1 tr2 : list event) :
  posts_made (tr1 ++ tr2) = (posts_made tr1 + posts_made tr2)%nat.
Proof.
  unfold posts_made. now rewrite List.filter_app, length_app.
Qed.

(** ** The endpoint resolver *)

Section Resolver.
Context `{Encoding}.

(** What one call of [GetServer] does, by what the network answers. *)
Lemma GetServer_run (s : State) :
  GetServer s =
  match posts (world s) with
  | [] => Done None (with_events [verify_request s] s)
  | PostFails :: rest =>
      Done None (with_world (set_posts rest) (with_events [verify_request s] s))
  | BodyUnreadable :: rest =>
      Done None (with_world (set_posts rest) (with_events [verify_request s] s))
  | Body data :: rest =>
      Done (option_map (fun r => WS (Endpoints r)) (json_Unmarshal_VerifyResponse data))
           (with_events [EvBodyClose]
              (with_world (set_posts rest) (with_events [verify_request s] s)))
  end.
Proof.
  unfold GetServer, http_Post. run_monad.
  destruct (posts (world s)) as [|[| |data] rest]; cbn; try reflexivity.
  destruct (json_Unmarshal_VerifyResponse data); reflexivity.
Qed.

(** [GetServer] always returns, leaves the transporter and the goroutines
    alone, and only adds to the trace. *)
Lemma GetServer_frame (s : State) :
  exists endpoint s' ev,
    GetServer s = Done endpoint s' /\
    tp s' = tp s /\ pool s' = pool s /\
    trace s' = trace s ++ verify_request s :: ev /\
    (ev = [] \/ ev = [EvBodyClose]) /\
    clock (world s') = clock (world s) /\
    actions (world s') = actions (world s) /\
    localIP (world s') = localIP (world s) /\
    dials (world s') = dials (world s) /\
    writes (world s') = writes (world s) /\
    reads (world s') = reads (world s) /\
    posts (world s') = tail (posts (world s)).
Proof.
  rewrite GetServer_run.
  destruct (posts (world s)) as [|[| |data] rest] eqn:Hp; cbn.
  - exists None, (with_events [verify_request s] s), []. cbn. rewrite Hp. tauto.
  - eexists _, _, []. split; [reflexivity|]. cbn. tauto.
  - eexists _, _, []. split; [reflexivity|]. cbn. tauto.
  - eexists _, _, [EvBodyClose]. split; [reflexivity|]. cbn.
    rewrite <- app_assoc. cbn. tauto.
Qed.

(** C6.  One call of the resolver makes exactly one HTTP exchange, whatever
    its outcome (no retry inside the call), and returns: no endpoint when the
    exchange fails in transport, when the response body cannot be read, and
    when the body does not decode; the [endpoints.ws] address of the decoded
    response otherwise. *)
Theorem GetServer_fails_or_extracts_endpoint (s : State) :
  exists endpoint s',
    GetServer s = Done endpoint s' /\
    posts_made (trace s') = S (posts_made (trace s)) /\
    posts (world s') = tail (posts (world s)) /\
    (head (posts (world s)) = None \/ head (posts (world s)) = Some PostFails ->
       endpoint = None) /\
    (head (posts (world s)) = Some BodyUnreadable -> endpoint = None) /\
    (forall data,
       head (posts (world s)) = Some (Body data) ->
       json_Unmarshal_VerifyResponse data = None ->
       endpoint = None) /\
    (forall data response,
       head (posts (world s)) = Some (Body data) ->
       json_Unmarshal_VerifyResponse data = Some response ->
       endpoint = Some (WS (Endpoints response))).
Proof.
  assert (Hone : forall tr, posts_made (tr ++ [verify_request s]) = S (posts_made tr)).
  { intros tr. rewrite posts_made_app. unfold verify_request. cbv [posts_made]. cbn. lia. }
  rewrite GetServer_run.
  destruct (posts (world s)) as [|[| |data] rest] eqn:Hp; cbn;
    eexists _, _; (split; [reflexivity|]); cbn.
  - rewrite Hone, Hp. repeat split; try reflexivity; try discriminate.
  - rewrite Hone. repeat split; try reflexivity; try discriminate.
  - rewrite Hone. repeat split; try reflexivity; try discriminate.
  - rewrite posts_made_app, Hone.
    split; [cbv [posts_made]; cbn; lia|]. split; [reflexivity|].
    split; [intros [?|?]; discriminate|].
    split; [discriminate|].
    split; intros d; [intros [= <-] ->|intros r [= <-] ->]; reflexivity.
Qed.

End Resolver.

(** ** closeAndReconnect *)

Section Reconnect.
Context `{Encoding}.

(** While a reconnection is in progress, [CloseAndReconnect] returns at once:
    no field changes, nothing happens on the network, [Connect] is not
    called. *)
Lemma CloseAndReconnect_guarded (fuel : nat) (s : State) :
  isConnecting (tp s) = true ->
  CloseAndReconnect fuel s = Done tt s.
Proof.
  intros Hg. unfold CloseAndReconnect, CloseAndReconnect_with. run_monad.
  now rewrite Hg.
Qed.

(** With the guard down and a stream at hand, [CloseAndReconnect] closes the
    stream unless the peer closed it, marks the transporter disconnected and
    connecting, and goes on as [Connect] does from there. *)
Lemma CloseAndReconnect_proceeds (fuel : nat) (s : State) (c : conn) :
  isConnecting (tp s) = false ->
  ws (tp s) = Some c ->
  CloseAndReconnect fuel s =
  Connect fuel
    (with_tp mark_reconnecting
       (with_events (if isClosed (tp s) then [] else [EvClose c]) s)).
Proof.
  intros Hg Hws. unfold CloseAndReconnect, CloseAndReconnect_with, ws_Close.
  run_monad. rewrite Hg.
  destruct (isClosed (tp s)) eqn:Hc; cbn.
  - unfold with_tp, with_events. cbn. rewrite app_nil_r.
    unfold mark_reconnecting. reflexivity.
  - rewrite Hws. cbn. reflexivity.
Qed.

(** The same when the peer has closed the stream, whether or not the
    transporter holds one. *)
Lemma CloseAndReconnect_after_peer_close (fuel : nat) (s : State) :
  isConnecting (tp s) = false ->
  isClosed (tp s) = true ->
  CloseAndReconnect fuel s = Connect fuel (with_tp mark_reconnecting s).
Proof.
  intros Hg Hc. unfold CloseAndReconnect, CloseAndReconnect_with.
  run_monad. rewrite Hg, Hc. cbn. reflexivity.
Qed.

(** C1.  With the guard down, no stream opened yet and no close from the
    peer, [CloseAndReconnect] calls [Close] on the nil stream and panics
    there: [isConnected] and [isConnecting] are not set and [Connect] is not
    called. *)
Theorem CloseAndReconnect_without_stream (fuel : nat) (s : State) :
  isConnecting (tp s) = false ->
  isClosed (tp s) = false ->
  ws (tp s) = None ->
  CloseAndReconnect fuel s = Panic NilDereference s.
Proof.
  intros Hg Hc Hws. unfold CloseAndReconnect, CloseAndReconnect_with, ws_Close.
  run_monad. rewrite Hg, Hc. cbn. rewrite Hws. reflexivity.
Qed.

End Reconnect.

(** ** Properties of the state kept by every method

    A property of states that survives every assignment of a field other
    than clearing [heartbeatTicker], every change of the world, every new
    event and every new goroutine other than a running heartbeat loop,
    survives every method of the transporter, however the call ends. *)

Lemma keeps_set_ws c : keeps_heartbeatTicker (set_ws c).
Proof. intros t Ht. exact Ht. Qed.
Lemma keeps_set_isConnected b : keeps_heartbeatTicker (set_isConnected b).
Proof. intros t Ht. exact Ht. Qed.
Lemma keeps_set_isHandling b : keeps_heartbeatTicker (set_isHandling b).
Proof. intros t Ht. exact Ht. Qed.
Lemma keeps_set_isConnecting b : keeps_heartbeatTicker (set_isConnecting b).
Proof. intros t Ht. exact Ht. Qed.
Lemma keeps_set_isClosed b : keeps_heartbeatTicker (set_isClosed b).
Proof. intros t Ht. exact Ht. Qed.
Lemma keeps_set_wsNode n : keeps_heartbeatTicker (set_wsNode n).
Proof. intros t Ht. exact Ht. Qed.
Lemma keeps_set_serverTicker k : keeps_heartbeatTicker (set_serverTicker k).
Proof. intros t Ht. exact Ht. Qed.
Lemma keeps_set_heartbeatTicker d : keeps_heartbeatTicker (set_heartbeatTicker (Some d)).
Proof. intros t Ht. discriminate. Qed.

Create HintDb keeps.
#[export] Hint Resolve keeps_set_ws keeps_set_isConnected keeps_set_isHandling
  keeps_set_isConnecting keeps_set_isClosed keeps_set_wsNode
  keeps_set_serverTicker keeps_set_heartbeatTicker : keeps.

Section Preservation.
Context `{Encoding}.
Context (P : State -> Prop) `{!Invariant P}.

Lemma preserves_ret {A} (a : A) : preserves P (ret a).
Proof. intros s Hs. exact Hs. Qed.

Lemma preserves_panic {A} (p : panic_value) : preserves P (@panic A p).
Proof. intros s Hs. exact Hs. Qed.

Lemma preserves_out_of_fuel {A} : preserves P (@out_of_fuel A).
Proof. intros s Hs. exact Hs. Qed.

Lemma preserves_bind {A B} (m : M A) (k : A -> M B) :
  preserves P m -> (forall a, preserves P (k a)) -> preserves P (bind m k).
Proof.
  intros Hm Hk s Hs. unfold bind. specialize (Hm s Hs).
  destruct (m s) as [a s'|p s'|s']; cbn in *; auto.
  now apply Hk.
Qed.

Lemma preserves_defer {A} (d : M unit) (body : M A) :
  preserves P d -> preserves P body -> preserves P (defer d body).
Proof.
  intros Hd Hb s Hs. unfold defer. specialize (Hb s Hs).
  destruct (body s) as [a s'|p s'|s']; cbn in *; auto;
    specialize (Hd s' Hb); destruct (d s'); cbn in *; auto.
Qed.

Lemma preserves_getT : preserves P getT.
Proof. intros s Hs. exact Hs. Qed.

Lemma preserves_getW : preserves P getW.
Proof. intros s Hs. exact Hs. Qed.

Lemma preserves_modifyT f : keeps_heartbeatTicker f -> preserves P (modifyT f).
Proof. intros Hf s Hs. now apply (inv_tp f s). Qed.

Lemma preserves_modifyW f : preserves P (modifyW f).
Proof. intros s Hs. now apply (inv_world f s). Qed.

Lemma preserves_emit e : preserves P (emit e).
Proof. intros s Hs. now apply (inv_events [e] s). Qed.

Lemma preserves_go g : g <> GHeartbeatLoop -> preserves P (go g).
Proof. intros Hg s Hs. now apply (inv_go g s). Qed.

End Preservation.

Create HintDb pres.

(** One step through the text of a method: a method already shown to keep
    [P], or the next construct of the monad. *)
Ltac preserved :=
  repeat first
    [ assumption
    | solve [eauto 2 with pres typeclass_instances nocore]
    | apply preserves_ret
    | apply preserves_panic
    | apply preserves_out_of_fuel
    | apply preserves_getT
    | apply preserves_getW
    | apply preserves_modifyW; solve [typeclasses eauto]
    | apply preserves_emit; solve [typeclasses eauto]
    | apply preserves_modifyT;
        first [solve [typeclasses eauto] | solve [auto with keeps]]
    | apply preserves_go; first [solve [typeclasses eauto] | discriminate]
    | apply preserves_defer
    | apply preserves_bind; [|intros ?]
    | match goal with
      | |- preserves _ (match ?x with _ => _ end) => destruct x
      end ].

Section PreservationOfMethods.
Context `{Encoding}.
Context (P : State -> Prop) `{!Invariant P}.

Lemma preserves_Sleep d : preserves P (Sleep d).
Proof. unfold Sleep. preserved. Qed.

Lemma preserves_http_Post url ct body : preserves P (http_Post url ct body).
Proof. unfold http_Post. preserved. Qed.

Lemma preserves_websocket_Dial url headers :
  preserves P (websocket_Dial url headers).
Proof. unfold websocket_Dial. preserved. Qed.

Lemma preserves_with_ws {A} (k : conn -> M A) :
  (forall c, preserves P (k c)) -> preserves P (with_ws k).
Proof. intros Hk. unfold with_ws. preserved. Qed.

Lemma preserves_ws_Close : preserves P ws_Close.
Proof. unfold ws_Close. apply preserves_with_ws. intros c. preserved. Qed.

Lemma preserves_ws_SetWriteDeadline d : preserves P (ws_SetWriteDeadline d).
Proof. unfold ws_SetWriteDeadline. apply preserves_with_ws. intros c. preserved. Qed.

Lemma preserves_ws_WriteMessage mt data : preserves P (ws_WriteMessage mt data).
Proof. unfold ws_WriteMessage. apply preserves_with_ws. intros c. preserved. Qed.

Lemma preserves_ws_ReadMessage : preserves P ws_ReadMessage.
Proof. unfold ws_ReadMessage. apply preserves_with_ws. intros c. preserved. Qed.

#[local] Hint Resolve preserves_Sleep preserves_http_Post preserves_websocket_Dial
  preserves_ws_Close preserves_ws_SetWriteDeadline preserves_ws_WriteMessage
  preserves_ws_ReadMessage : pres.

Lemma preserves_GetServer : preserves P GetServer.
Proof. unfold GetServer. cbv zeta. preserved. Qed.

Lemma preserves_CloseAndReconnect_with (connect : M unit) :
  preserves P connect -> preserves P (CloseAndReconnect_with connect).
Proof. intros Hc. unfold CloseAndReconnect_with. preserved. Qed.

Lemma preserves_SetHandlers : preserves P SetHandlers.
Proof. unfold SetHandlers. preserved. Qed.

#[local] Hint Resolve preserves_GetServer preserves_SetHandlers
  preserves_CloseAndReconnect_with : pres.

Lemma preserves_Connect fuel : preserves P (Connect fuel).
Proof.
  induction fuel as [|fuel IH]; cbn [Connect]; [apply preserves_out_of_fuel|].
  preserved.
Qed.

Lemma preserves_CloseAndReconnect fuel : preserves P (CloseAndReconnect fuel).
Proof. apply preserves_CloseAndReconnect_with, preserves_Connect. Qed.

#[local] Hint Resolve preserves_Connect preserves_CloseAndReconnect : pres.

Lemma preserves_SendJson fuel msg : preserves P (SendJson fuel msg).
Proof. unfold SendJson, Lock, Unlock. preserved. Qed.

#[local] Hint Resolve preserves_SendJson : pres.

Lemma preserves_Send fuel channel data : preserves P (Send fuel channel data).
Proof. unfold Send. preserved. Qed.

#[local] Hint Resolve preserves_Send : pres.

Lemma preserves_MessagesHandler_iter fuel : preserves P (MessagesHandler_iter fuel).
Proof. unfold MessagesHandler_iter. cbv zeta. preserved. Qed.

Lemma preserves_heartbeat_start : preserves P heartbeat_start.
Proof. unfold heartbeat_start. preserved. Qed.

Lemma preserves_heartbeat_tick fuel : preserves P (heartbeat_tick fuel).
Proof. unfold heartbeat_tick, Lock, Unlock. preserved. Qed.

Lemma preserves_refresh_start : preserves P refresh_start.
Proof. unfold refresh_start. preserved. Qed.

Lemma preserves_refresh_tick fuel : preserves P (refresh_tick fuel).
Proof. unfold refresh_tick. preserved. Qed.

End PreservationOfMethods.

#[export] Hint Resolve preserves_Sleep preserves_http_Post preserves_websocket_Dial
  preserves_ws_Close preserves_ws_SetWriteDeadline preserves_ws_WriteMessage
  preserves_ws_ReadMessage preserves_GetServer preserves_SetHandlers
  preserves_CloseAndReconnect_with preserves_Connect preserves_CloseAndReconnect
  preserves_SendJson preserves_Send preserves_MessagesHandler_iter
  preserves_heartbeat_start preserves_heartbeat_tick preserves_refresh_start
  preserves_refresh_tick : pres.

(** Every call only adds to the trace. *)
#[export] Instance extends_invariant (tr : list event) : Invariant (extends tr).
Proof.
  split; unfold extends; cbn; intros; try assumption.
  destruct H as [ev' ->]. exists (ev' ++ ev). now rewrite app_assoc.
Qed.


(** ** Running the monad by hand *)

Lemma bind_ret {A B} (a : A) (k : A -> M B) (s : State) :
  bind (ret a) k s = k a s.
Proof. reflexivity. Qed.

Lemma bind_getT {A} (k : Transporter -> M A) (s : State) :
  bind getT k s = k (tp s) s.
Proof. reflexivity. Qed.

Lemma bind_getW {A} (k : World -> M A) (s : State) :
  bind getW k s = k (world s) s.
Proof. reflexivity. Qed.

Lemma bind_emit {A} (e : event) (k : unit -> M A) (s : State) :
  bind (emit e) k s = k tt (with_events [e] s).
Proof. reflexivity. Qed.

Lemma bind_modifyT {A} f (k : unit -> M A) (s : State) :
  bind (modifyT f) k s = k tt (with_tp f s).
Proof. reflexivity. Qed.

Lemma bind_modifyW {A} f (k : unit -> M A) (s : State) :
  bind (modifyW f) k s = k tt (with_world f s).
Proof. reflexivity. Qed.

Lemma bind_go {A} g (k : unit -> M A) (s : State) :
  bind (go g) k s = k tt (with_goroutine g s).
Proof. reflexivity. Qed.

Lemma bind_assoc {A B C} (m : M A) (k : A -> M B) (k' : B -> M C) (s : State) :
  bind (bind m k) k' s = bind m (fun a => bind (k a) k') s.
Proof. unfold bind. now destruct (m s). Qed.

Lemma bind_done {A B} (m : M A) (k : A -> M B) (s s' : State) (a : A) :
  m s = Done a s' -> bind m k s = k a s'.
Proof. unfold bind. now intros ->. Qed.

Lemma bind_panics {A B} (m : M A) (k : A -> M B) (s s' : State) p :
  m s = Panic p s' -> bind m k s = Panic p s'.
Proof. unfold bind. now intros ->. Qed.

(** ** connect() *)

Section Connecting.
Context `{Encoding}.



(** C7.  With no cached endpoint and a failed resolution, [Connect] returns
    to its caller straight after the resolver: it dials nothing, sleeps for
    nothing, changes no field, and leaves one new goroutine behind.  That
    goroutine, when it runs, sleeps for ten seconds and then calls
    [Connect]. *)
Theorem Connect_schedules_retry_on_failed_resolution
    (fuel : nat) (s s1 : State) :
  wsNode (tp s) = None ->
  GetServer s = Done None s1 ->
  Connect (S fuel) s = Done tt (with_goroutine GRetryConnect s1) /\
  tp s1 = tp s /\
  pool s1 = pool s /\
  List.filter is_dial (trace s1) = List.filter is_dial (trace s) /\
  List.filter is_sleep (trace s1) = List.filter is_sleep (trace s) /\
  (forall fuel' s',
     run_goroutine fuel' GRetryConnect s' =
     bind (Connect fuel') (fun _ => ret GExited)
       (with_world (fun w => set_clock (clock w + 10000000000) w)
          (with_events [EvSleep 10000000000] s'))).
Proof.
  intros Hnode Hget.
  destruct (GetServer_frame s)
    as (e & s' & ev & Hrun & Htp & Hpool & Htr & Hev & _).
  rewrite Hget in Hrun. injection Hrun as <- <-.
  split; [|split; [exact Htp|split; [exact Hpool|split; [|split]]]].
  - cbn [Connect]. rewrite bind_getT, Hnode.
    rewrite bind_assoc, (bind_done GetServer _ _ _ _ Hget).
    rewrite bind_modifyT, bind_getT. cbn.
    unfold go, with_goroutine, with_tp. cbn.
    rewrite set_wsNode_same; [reflexivity|]. now rewrite Htp.
  - rewrite Htr, List.filter_app. cbn.
    destruct Hev as [-> | ->]; cbn; now rewrite app_nil_r.
  - rewrite Htr, List.filter_app. cbn.
    destruct Hev as [-> | ->]; cbn; now rewrite app_nil_r.
  - reflexivity.
Qed.


End Connecting.

(** ** send *)

Section Sending.
Context `{Encoding}.

(** [SendJson] while disconnected: the message is marshalled, the lock is
    taken and released, and nothing else happens. *)
Lemma SendJson_disconnected (fuel : nat) (msg : marshalled) (s : State) :
  isConnected (tp s) = false ->
  SendJson fuel msg s =
  Done tt (with_events (match json_Marshal msg with
                        | Some _ => [EvLock; EvUnlock]
                        | None => []
                        end) s).
Proof.
  intros Hc. unfold SendJson.
  destruct (json_Marshal msg) as [b|].
  - run_monad. rewrite Hc. cbn. unfold with_events.
    now rewrite <- app_assoc.
  - now rewrite with_events_nil.
Qed.


(** [SendJson] on a live stream whose write succeeds. *)
Lemma SendJson_connected
    (fuel : nat) (msg : marshalled) (s : State) (c : conn) (b : bytes)
    (wrest : list bool) :
  ws (tp s) = Some c ->
  isConnected (tp s) = true ->
  json_Marshal msg = Some b ->
  writes (world s) = true :: wrest ->
  SendJson fuel msg s =
  Done tt
    (with_events [EvLock;
                  EvSetWriteDeadline c (clock (world s) + 30 * Second);
                  EvWrite c TextMessage b true;
                  EvUnlock]
       (with_world (set_writes wrest) s)).
Proof.
  intros Hws Hc Hm Hw. unfold SendJson, ws_SetWriteDeadline, ws_WriteMessage.
  rewrite Hm. run_monad.
  repeat (progress (cbn; rewrite ?Hc, ?Hws, ?Hw)).
  unfold with_events, with_world. cbn. now rewrite <- !app_assoc.
Qed.

Lemma Send_connected
    (fuel : nat) (channel : string) (data : value) (s : State) (c : conn)
    (b : bytes) (wrest : list bool) :
  ws (tp s) = Some c ->
  isConnected (tp s) = true ->
  json_Marshal (MMessage (envelope (tp s) (world s) channel data)) = Some b ->
  writes (world s) = true :: wrest ->
  Send fuel channel data s =
  Done tt
    (with_events [EvLock;
                  EvSetWriteDeadline c (clock (world s) + 30 * Second);
                  EvWrite c TextMessage b true;
                  EvUnlock]
       (with_world (set_writes wrest) s)).
Proof.
  intros Hws Hc Hm Hw. unfold Send. rewrite bind_getT, bind_getW.
  now apply SendJson_connected.
Qed.

End Sending.

(** ** The dispatcher and the loops *)

Section Dispatching.
Context `{Encoding}.

Lemma ws_ReadMessage_ok (s : State) (c : conn) (message : bytes) rest :
  ws (tp s) = Some c ->
  reads (world s) = ReadMessageOk message :: rest ->
  ws_ReadMessage s = Done (Some message) (after_read c rest s).
Proof.
  intros Hws Hr. unfold ws_ReadMessage. run_monad. rewrite Hws. cbn.
  rewrite Hr. reflexivity.
Qed.

(** C8.  A frame that does not decode makes the dispatcher panic with the
    decoding error: the turn does not end, the loop does not go on, nothing
    is logged, and the goroutine of the dispatcher dies with it. *)
Theorem MessagesHandler_panics_on_malformed_frame
    (fuel : nat) (s : State) (c : conn) (message : bytes)
    (rest : list ReadResult) :
  ws (tp s) = Some c ->
  reads (world s) = ReadMessageOk message :: rest ->
  json_Unmarshal message = None ->
  MessagesHandler_iter fuel s = Panic JsonError (after_read c rest s) /\
  MessagesHandler (S fuel) s = Panic JsonError (after_read c rest s) /\
  (forall i : nat,
     pool s !! i = Some GMessagesHandler ->
     step fuel i s = Panic JsonError (after_read c rest s)).
Proof.
  intros Hws Hr Hdec.
  assert (Hiter : MessagesHandler_iter fuel s = Panic JsonError (after_read c rest s)).
  { unfold MessagesHandler_iter.
    rewrite (bind_done ws_ReadMessage _ _ _ _ (ws_ReadMessage_ok s c message rest Hws Hr)).
    rewrite Hdec. reflexivity. }
  split; [exact Hiter|]. split.
  - cbn [MessagesHandler].
    now rewrite (bind_panics (MessagesHandler_iter fuel) _ _ _ _ Hiter).
  - intros i Hi. unfold step. rewrite Hi. cbn [run_goroutine].
    rewrite bind_assoc.
    now rewrite (bind_panics (MessagesHandler_iter fuel) _ _ _ _ Hiter).
Qed.

(** C3.  On a live stream, a [trigger:action] frame naming a registered
    action makes the dispatcher write exactly two text frames and go on to
    the next read: first the envelope on channel [trigger:action:success],
    then the envelope on channel [axm:reply]; the [action_name] of both is the
    name asked for, and the reply carries what the callback returned. *)
Theorem MessagesHandler_answers_trigger_action
    (fuel : nat) (s : State) (c : conn) (message : bytes)
    (rest : list ReadResult) (dat payload : gomap) (name : string)
    (a : Action) (b1 b2 : bytes) (wrest : list bool) :
  let result := match Callback a with Some r => VString r | None => VNil end in
  let ack :=
    envelope (tp s) (world s) "trigger:action:success"
      (VMap [("success", VBool true);
             ("id", index payload "process_id");
             ("action_name", VString name)]) in
  let reply :=
    envelope (tp s) (world s) "axm:reply"
      (VMap [("action_name", VString name); ("return", result)]) in
  ws (tp s) = Some c ->
  isConnected (tp s) = true ->
  reads (world s) = ReadMessageOk message :: rest ->
  json_Unmarshal message = Some dat ->
  index dat "channel" = VString "trigger:action" ->
  index dat "payload" = VMap payload ->
  index payload "action_name" = VString name ->
  find (fun a => String.eqb (ActionName a) name) (actions (world s)) = Some a ->
  json_Marshal (MMessage ack) = Some b1 ->
  json_Marshal (MMessage reply) = Some b2 ->
  writes (world s) = true :: true :: wrest ->
  exists s',
    MessagesHandler_iter fuel s = Done Continue s' /\
    tp s' = tp s /\
    pool s' = pool s /\
    trace s' =
      trace s ++
      [EvRead c;
       EvLock; EvSetWriteDeadline c (clock (world s) + 30 * Second);
       EvWrite c TextMessage b1 true; EvUnlock;
       EvLock; EvSetWriteDeadline c (clock (world s) + 30 * Second);
       EvWrite c TextMessage b2 true; EvUnlock] /\
    sent_frames (trace s') = sent_frames (trace s) ++ [b1; b2] /\
    Channel ack = "trigger:action:success" /\
    Channel reply = "axm:reply" /\
    field (envelope_data ack) "action_name" = VString name /\
    field (envelope_data reply) "action_name" = VString name /\
    field (envelope_data reply) "return" = result.
Proof.
  intros result ack reply Hws Hc Hr Hdec Hch Hpl Hname Hreg Hm1 Hm2 Hw.
  unfold MessagesHandler_iter.
  rewrite (bind_done ws_ReadMessage _ _ _ _ (ws_ReadMessage_ok s c message rest Hws Hr)).
  rewrite Hdec, Hch. cbn [is_string String.eqb Ascii.eqb Bool.eqb].
  rewrite Hpl. cbv zeta. rewrite Hname, bind_getW.
  assert (Hcall : CallAction (actions (world (after_read c rest s))) name payload = result).
  { unfold CallAction. cbn [after_read with_world with_events world actions set_reads].
    now rewrite Hreg. }
  rewrite Hcall.
  set (s1 := after_read c rest s).
  assert (Hsend1 := Send_connected fuel "trigger:action:success"
            (VMap [("success", VBool true); ("id", index payload "process_id");
                   ("action_name", VString name)])
            s1 c b1 (true :: wrest) Hws Hc Hm1 Hw).
  rewrite (bind_done (Send fuel "trigger:action:success" _) _ _ _ _ Hsend1).
  match type of Hsend1 with _ = Done tt ?st => set (s2 := st) end.
  assert (Hsend2 := Send_connected fuel "axm:reply"
            (VMap [("action_name", VString name); ("return", result)])
            s2 c b2 wrest Hws Hc Hm2 eq_refl).
  rewrite (bind_done (Send fuel "axm:reply" _) _ _ _ _ Hsend2).
  eexists. split; [reflexivity|].
  cbn [tp pool trace with_events with_world s2 s1 after_read world clock
         set_writes set_reads].
  rewrite <- !app_assoc. cbn [app].
  repeat split.
  rewrite sent_frames_app. reflexivity.
Qed.

(** C2.  On a refresh tick whose resolution fails, the loop dereferences the
    nil result and panics, in the state the resolver left: the refresh
    goroutine does not go on to its next tick. *)
Theorem refresh_tick_panics_on_failed_resolution
    (fuel : nat) (s s1 : State) :
  GetServer s = Done None s1 ->
  refresh_tick fuel s = Panic NilDereference s1 /\
  run_goroutine fuel GRefreshLoop s = Panic NilDereference s1 /\
  tp s1 = tp s.
Proof.
  intros Hget.
  assert (Htick : refresh_tick fuel s = Panic NilDereference s1).
  { unfold refresh_tick. now rewrite (bind_done GetServer _ _ _ _ Hget). }
  split; [exact Htick|split].
  - cbn [run_goroutine]. now apply bind_panics.
  - destruct (GetServer_frame s) as (e & s' & ev & Hrun & Htp & _).
    rewrite Hget in Hrun. now injection Hrun as <- <-.
Qed.

End Dispatching.

(** ** The heartbeat loop across reconnects *)

Lemma no_loop_insert (l : list goroutine) (i : nat) (g : goroutine) :
  length (List.filter is_heartbeat_loop l) = 0%nat ->
  is_heartbeat_loop g = false ->
  length (List.filter is_heartbeat_loop (<[i := g]> l)) = 0%nat.
Proof.
  revert i. induction l as [|a l IH]; intros i Hl Hg; [exact Hl|].
  cbn in Hl. destruct (is_heartbeat_loop a) eqn:Ha; [discriminate|].
  destruct i as [|i]; cbn.
  - now rewrite Hg.
  - rewrite Ha. now apply IH.
Qed.

Lemma no_loop_lookup (l : list goroutine) (i : nat) (g : goroutine) :
  length (List.filter is_heartbeat_loop l) = 0%nat ->
  l !! i = Some g ->
  is_heartbeat_loop g = false.
Proof.
  revert i. induction l as [|a l IH]; intros i Hl Hi; [discriminate|].
  cbn in Hl. destruct (is_heartbeat_loop a) eqn:Ha; [discriminate|].
  destruct i as [|i]; cbn in Hi.
  - now injection Hi as <-.
  - now apply (IH i).
Qed.

Lemma no_loop_app (l : list goroutine) (g : goroutine) :
  length (List.filter is_heartbeat_loop l) = 0%nat ->
  g <> GHeartbeatLoop ->
  length (List.filter is_heartbeat_loop (l ++ [g])) = 0%nat.
Proof.
  intros Hl Hg. rewrite List.filter_app, length_app, Hl.
  destruct g; cbn; congruence.
Qed.

#[export] Instance heartbeat_stopped_invariant : Invariant heartbeat_stopped.
Proof.
  split; unfold heartbeat_stopped, active_heartbeats; cbn.
  - intros f s Hf [Ht Hp]. split; [now apply Hf|exact Hp].
  - intros f s Hs. exact Hs.
  - intros ev s Hs. exact Hs.
  - intros g s Hg [Ht Hp]. split; [exact Ht|now apply no_loop_app].
Qed.

(** The ticker of the heartbeat, once set, stays set. *)
#[export] Instance ticker_set_invariant : Invariant ticker_set.
Proof.
  split; unfold ticker_set; cbn; intros; auto.
Qed.

(** The pool only grows, and never by a running heartbeat loop. *)
#[export] Instance pool_extends_invariant (l : list goroutine) :
  Invariant (pool_extends l).
Proof.
  split; unfold pool_extends; cbn; intros; try assumption.
  destruct H0 as (extra & -> & Hx). exists (extra ++ [g]).
  split; [now rewrite app_assoc|now apply no_loop_app].
Qed.

Lemma pool_extends_refl (s : State) : pool_extends (pool s) s.
Proof. exists []. split; [now rewrite app_nil_r|reflexivity]. Qed.

Lemma one_loop_replaced (l : list goroutine) (i : nat) :
  length (List.filter is_heartbeat_loop l) = 1%nat ->
  l !! i = Some GHeartbeatLoop ->
  length (List.filter is_heartbeat_loop (<[i := GExited]> l)) = 0%nat.
Proof.
  revert i. induction l as [|a l IH]; intros i Hl Hi; [discriminate|].
  destruct i as [|i]; cbn in Hi.
  - injection Hi as ->. cbn in *. lia.
  - cbn in Hl |- *. destruct (is_heartbeat_loop a) eqn:Ha.
    + cbn in Hl. assert (Hz : length (List.filter is_heartbeat_loop l) = 0%nat) by lia.
      pose proof (no_loop_lookup _ _ _ Hz Hi) as Hno. discriminate Hno.
    + now apply IH.
Qed.

Section Heartbeat.
Context `{Encoding}.

(** Once the ticker is set, a heartbeat goroutine that starts returns at
    once. *)
Lemma heartbeat_start_returns (s : State) :
  heartbeatTicker (tp s) <> None ->
  heartbeat_start s = Done Return s.
Proof.
  intros Ht. unfold heartbeat_start. rewrite bind_getT.
  destruct (heartbeatTicker (tp s)); [reflexivity|congruence].
Qed.

(** A failed ping ends the heartbeat loop after [CloseAndReconnect]. *)
Lemma heartbeat_tick_write_error
    (fuel : nat) (s : State) (c : conn) (wrest : list bool) :
  ws (tp s) = Some c ->
  writes (world s) = false :: wrest ->
  heartbeat_tick fuel s =
  bind (CloseAndReconnect fuel) (fun _ => ret Return)
    (with_events [EvLock; EvWrite c PingMessage "" false; EvUnlock]
       (with_world (set_writes wrest) s)).
Proof.
  intros Hws Hw. unfold heartbeat_tick, ws_WriteMessage. run_monad.
  rewrite Hws. cbn. rewrite Hw. cbn.
  unfold with_events, with_world. cbn. now rewrite <- !app_assoc.
Qed.

(** What a goroutine other than a running heartbeat loop turns into, when
    the heartbeat has stopped, is never a running heartbeat loop. *)
Lemma run_goroutine_never_loops (fuel : nat) (g g' : goroutine) (s s' : State) :
  heartbeat_stopped s ->
  is_heartbeat_loop g = false ->
  run_goroutine fuel g s = Done g' s' ->
  is_heartbeat_loop g' = false.
Proof.
  intros [Ht _] Hg. destruct g; cbn [run_goroutine]; try discriminate.
  - unfold bind. destruct (Sleep _ s); try discriminate.
    destruct (Connect fuel s0); try discriminate. now intros [= <- _].
  - unfold bind. destruct (refresh_start s) as [[] ?| |]; try discriminate;
      now intros [= <- _].
  - unfold bind. destruct (refresh_tick fuel s); try discriminate.
    now intros [= <- _].
  - unfold bind. destruct (MessagesHandler_iter fuel s) as [[] ?| |];
      try discriminate; now intros [= <- _].
  - rewrite (bind_done heartbeat_start _ _ _ _ (heartbeat_start_returns s Ht)).
    now intros [= <- _].
  - now intros [= <- _].
Qed.

Lemma preserves_run_goroutine (fuel : nat) (g : goroutine)
    (P : State -> Prop) `{!Invariant P} :
  preserves P (run_goroutine fuel g).
Proof. destruct g; cbn [run_goroutine]; preserved. Qed.

Lemma step_keeps_heartbeat_stopped (fuel i : nat) :
  preserves heartbeat_stopped (step fuel i).
Proof.
  intros s Hs. unfold step.
  destruct (pool s !! i) as [g|] eqn:Hi; [|exact Hs].
  assert (Hg : is_heartbeat_loop g = false).
  { destruct Hs as [_ Hp]. exact (no_loop_lookup _ _ _ Hp Hi). }
  assert (Hrun := preserves_run_goroutine fuel g heartbeat_stopped s Hs).
  assert (Hval := run_goroutine_never_loops fuel g).
  unfold bind.
  destruct (run_goroutine fuel g s) as [g' s'| |] eqn:Hrg; cbn in *; try exact Hrun.
  specialize (Hval g' s s' Hs Hg Hrg).
  destruct Hrun as [Ht Hp]. split; [exact Ht|].
  unfold active_heartbeats. cbn. now apply no_loop_insert.
Qed.

Lemma run_keeps_heartbeat_stopped (fuel : nat) (schedule : list nat) :
  preserves heartbeat_stopped (run fuel schedule).
Proof.
  induction schedule as [|i schedule IH]; cbn [run].
  - apply preserves_ret.
  - apply preserves_bind; [apply step_keeps_heartbeat_stopped|intros _; exact IH].
Qed.

(** C5.  When the ping of the only heartbeat loop fails and the turn returns
    (its [CloseAndReconnect] has reconnected or given up), the loop has
    ended, its ticker is still set, and no goroutine is a running heartbeat
    loop; and however the goroutines run from there, through whatever
    reconnects, none ever is again. *)
Theorem heartbeat_not_restarted_after_write_error
    (fuel i : nat) (s s' : State) (c : conn) (wrest : list bool) :
  pool s !! i = Some GHeartbeatLoop ->
  active_heartbeats s = 1%nat ->
  heartbeatTicker (tp s) <> None ->
  ws (tp s) = Some c ->
  writes (world s) = false :: wrest ->
  step fuel i s = Done tt s' ->
  pool s' !! i = Some GExited /\
  heartbeatTicker (tp s') <> None /\
  active_heartbeats s' = 0%nat /\
  forall (fuel' : nat) (schedule : list nat),
    active_heartbeats (final (run fuel' schedule s')) = 0%nat.
Proof.
  intros Hi Hone Ht Hws Hw Hstep.
  set (s0 := with_events [EvLock; EvWrite c PingMessage "" false; EvUnlock]
               (with_world (set_writes wrest) s)).
  assert (Hgrow := preserves_CloseAndReconnect (pool_extends (pool s)) fuel s0).
  assert (Htick := preserves_CloseAndReconnect ticker_set fuel s0).
  unfold step in Hstep. rewrite Hi in Hstep. cbn [run_goroutine] in Hstep.
  rewrite bind_assoc in Hstep. unfold bind at 1 in Hstep.
  rewrite (heartbeat_tick_write_error fuel s c wrest Hws Hw) in Hstep.
  fold s0 in Hstep. unfold bind at 1 in Hstep.
  specialize (Hgrow (pool_extends_refl s)). specialize (Htick Ht).
  destruct (CloseAndReconnect fuel s0) as [[] s1| |]; try discriminate.
  cbn in Hgrow, Htick, Hstep. injection Hstep as <-.
  destruct Hgrow as (extra & Hpool & Hextra).
  assert (Hlt : (i < length (pool s))%nat) by (eapply lookup_lt_Some; eauto).
  assert (Hins : <[i := GExited]> (pool s1) = <[i := GExited]> (pool s) ++ extra).
  { rewrite Hpool. now apply insert_app_l. }
  assert (Hzero : active_heartbeats
                    {| tp := tp s1; world := world s1; trace := trace s1;
                       pool := <[i := GExited]> (pool s1) |} = 0%nat).
  { unfold active_heartbeats. cbn. rewrite Hins, List.filter_app, length_app, Hextra.
    now rewrite (one_loop_replaced _ _ Hone Hi). }
  split; [|split; [exact Htick|split; [exact Hzero|]]].
  - cbn. rewrite Hins. rewrite lookup_app_l by now rewrite length_insert.
    now apply list_lookup_insert_eq.
  - intros fuel' schedule.
    apply (run_keeps_heartbeat_stopped fuel' schedule). split; assumption.
Qed.

End Heartbeat.

(** ** The model on concrete runs *)

(** A transporter whose very first dial fails: [Connect] sleeps two seconds,
    clears the guard, calls [CloseAndReconnect], and panics in it on the nil
    stream.  No second dial is made. *)
Example Connect_first_dial_fails :
  exists s',
    @Connect sample_encoding 5 (start sample_transporter dial_refused)
    = Panic NilDereference s' /\
    isConnecting (tp s') = false /\
    ws (tp s') = None /\
    length (List.filter is_dial (trace s')) = 1%nat /\
    List.filter is_sleep (trace s') = [EvSleep 2000000000].
Proof. eexists. split; [vm_compute; reflexivity|]. vm_compute. auto. Qed.

(** The ping fails, the reconnect succeeds, and the transporter is connected
    with no heartbeat loop. *)
Example reconnected_without_heartbeat :
  exists s',
    @step sample_encoding 5 1 (connected_state ping_fails_redial_succeeds)
    = Done tt s' /\
    isConnected (tp s') = true /\
    ws (tp s') = Some 2%nat /\
    pool s' = [GMessagesHandler; GExited; GRefreshLoop; GRefreshStart] /\
    active_heartbeats s' = 0%nat.
Proof. eexists. split; [vm_compute; reflexivity|]. vm_compute. auto. Qed.

Lemma CloseAndReconnect_without_stream_witness :
  @CloseAndReconnect sample_encoding 5 (start sample_transporter dial_refused)
  = Panic NilDereference (start sample_transporter dial_refused).
Proof.
  apply (@CloseAndReconnect_without_stream sample_encoding 5
           (start sample_transporter dial_refused)); reflexivity.
Defined.

Lemma refresh_tick_panics_on_failed_resolution_witness :
  exists s1,
    @GetServer sample_encoding (connected_state discovery_down) = Done None s1 /\
    tp s1 = tp (connected_state discovery_down) /\
    @refresh_tick sample_encoding 5 (connected_state discovery_down)
    = Panic NilDereference s1 /\
    @run_goroutine sample_encoding 5 GRefreshLoop (connected_state discovery_down)
    = Panic NilDereference s1.
Proof.
  eexists. split; [vm_compute; reflexivity|]. split; [reflexivity|].
  destruct (@refresh_tick_panics_on_failed_resolution sample_encoding 5
              (connected_state discovery_down) _ ltac:(vm_compute; reflexivity))
    as (Htick & Hgo & _).
  split; [exact Htick|exact Hgo].
Defined.

Lemma MessagesHandler_answers_trigger_action_witness :
  exists s',
    @MessagesHandler_iter sample_encoding 5 (connected_state trigger_Test)
    = Done Continue s' /\
    sent_frames (trace s') =
      ["message on trigger:action:success"; "message on axm:reply"].
Proof.
  destruct (@MessagesHandler_answers_trigger_action sample_encoding 5
              (connected_state trigger_Test) 1%nat "trigger Test" []
              sample_action_frame
              [("action_name", VString "Test"); ("process_id", VFloat64 0)]
              "Test"
              {| ActionName := "Test"; Callback := Some "I am the test answer" |}
              "message on trigger:action:success" "message on axm:reply" [])
    as (s' & Hrun & _ & _ & _ & Hsent & _); try reflexivity.
  exists s'. split; [exact Hrun|exact Hsent].
Defined.


Lemma heartbeat_not_restarted_after_write_error_witness :
  exists s',
    @step sample_encoding 5 1 (connected_state ping_fails_redial_succeeds)
    = Done tt s' /\
    isConnected (tp s') = true /\
    pool s' !! 1%nat = Some GExited /\
    heartbeatTicker (tp s') <> None /\
    active_heartbeats s' = 0%nat /\
    forall (fuel' : nat) (schedule : list nat),
      active_heartbeats (final (@run sample_encoding fuel' schedule s')) = 0%nat.
Proof.
  eexists. split; [vm_compute; reflexivity|]. split; [reflexivity|].
  apply (@heartbeat_not_restarted_after_write_error sample_encoding 5 1
           (connected_state ping_fails_redial_succeeds) _ 1%nat []);
    try reflexivity.
  discriminate.
Defined.

Lemma Connect_schedules_retry_on_failed_resolution_witness :
  exists s1,
    @Connect sample_encoding 5 (start sample_transporter discovery_down)
    = Done tt (with_goroutine GRetryConnect s1) /\
    pool (with_goroutine GRetryConnect s1) = [GRetryConnect] /\
    tp s1 = sample_transporter /\
    List.filter is_dial (trace s1) = [] /\
    List.filter is_sleep (trace s1) = [].
Proof.
  eexists.
  destruct (@Connect_schedules_retry_on_failed_resolution sample_encoding 4
              (start sample_transporter discovery_down) _ eq_refl
              ltac:(vm_compute; reflexivity))
    as (Hrun & Htp & Hpool & Hdial & Hsleep & _).
  split; [exact Hrun|]. split; [reflexivity|].
  split; [exact Htp|]. split; [exact Hdial|exact Hsleep].
Defined.

Lemma MessagesHandler_panics_on_malformed_frame_witness :
  @MessagesHandler_iter sample_encoding 5 (connected_state malformed_frame)
  = Panic JsonError (after_read 1%nat [] (connected_state malformed_frame)) /\
  @MessagesHandler sample_encoding 6 (connected_state malformed_frame)
  = Panic JsonError (after_read 1%nat [] (connected_state malformed_frame)) /\
  @step sample_encoding 5 0 (connected_state malformed_frame)
  = Panic JsonError (after_read 1%nat [] (connected_state malformed_frame)).
Proof.
  destruct (@MessagesHandler_panics_on_malformed_frame sample_encoding 5
              (connected_state malformed_frame) 1%nat "not json" []
              eq_refl eq_refl eq_refl)
    as (Hiter & Hloop & Hstep).
  split; [exact Hiter|]. split; [exact Hloop|]. apply Hstep. reflexivity.
Defined.


(** * Further properties *)

(** ** The metric registry *)

Section RegistryProperties.
Context `{MetricType}.

Lemma get_at_same (a : addr) (h : addr -> Metric) :
  get_at a h a = Metric_Get (h a).
Proof. unfold get_at. now rewrite Nat.eqb_refl. Qed.

Lemma get_at_other (a b : addr) (h : addr -> Metric) :
  a <> b -> get_at a h b = h b.
Proof.
  intros Hne. unfold get_at.
  destruct (Nat.eqb_spec b a); [congruence|reflexivity].
Qed.

Lemma get_at_name (a b : addr) (h : addr -> Metric) :
  (forall x, Metric_Name (Metric_Get x) = Metric_Name x) ->
  Metric_Name (get_at a h b) = Metric_Name (h b).
Proof.
  intros Hname. unfold get_at. destruct (Nat.eqb b a); [apply Hname|reflexivity].
Qed.

(** The loop over a slice without nil pointers, from any map. *)
Lemma GetMetricsAsMap_range_run (l : list addr) (h : addr -> Metric)
    (m : gmap string addr) :
  (forall x, Metric_Name (Metric_Get x) = Metric_Name x) ->
  exists m' h',
    GetMetricsAsMap_range (map Some l) h m = Some (m', h') /\
    (forall n, m' !! n = match last (registered_as n h l) with
                         | Some a => Some a
                         | None => m !! n
                         end) /\
    (forall a, h' a = Nat.iter (registrations a l) Metric_Get (h a)).
Proof.
  intros Hname. revert h m.
  induction l as [|a l IH]; intros h m; cbn [map GetMetricsAsMap_range].
  - exists m, h. split; [reflexivity|]. split; reflexivity.
  - cbv zeta.
    destruct (IH (get_at a h) (<[Metric_Name (get_at a h a) := a]> m))
      as (m' & h' & Hrun & Hm & Hh).
    exists m', h'. split; [exact Hrun|]. split.
    + intros n. rewrite Hm.
      assert (Hreg : registered_as n (get_at a h) l = registered_as n h l).
      { unfold registered_as. apply List.filter_ext. intros b.
        now rewrite get_at_name. }
      rewrite Hreg. unfold registered_as at 2. cbn [List.filter].
      rewrite get_at_name by exact Hname.
      destruct (String.eqb_spec (Metric_Name (h a)) n) as [Heq|Hne].
      * rewrite Heq. fold (registered_as n h l).
        destruct (registered_as n h l) as [|b bs] eqn:Hr.
        -- cbn. now rewrite lookup_insert_eq.
        -- rewrite last_cons_cons.
           destruct (last (b :: bs)) eqn:Hl; [reflexivity|].
           apply last_None in Hl. discriminate Hl.
      * fold (registered_as n h l).
        destruct (last (registered_as n h l)); [reflexivity|].
        now rewrite lookup_insert_ne.
    + intros b. rewrite Hh. unfold registrations. cbn [List.filter].
      destruct (Nat.eqb_spec b a) as [->|Hne].
      * rewrite get_at_same. cbn [length]. now rewrite Nat.iter_succ_r.
      * now rewrite get_at_other by congruence.
Qed.

(** The calls of [Get] made by the loop, whatever [Get] does to names. *)
Lemma GetMetricsAsMap_range_heap (l : list addr) (h : addr -> Metric)
    (m : gmap string addr) :
  exists m' h',
    GetMetricsAsMap_range (map Some l) h m = Some (m', h') /\
    (forall a, h' a = Nat.iter (registrations a l) Metric_Get (h a)).
Proof.
  revert h m.
  induction l as [|a l IH]; intros h m; cbn [map GetMetricsAsMap_range].
  - exists m, h. split; reflexivity.
  - cbv zeta.
    destruct (IH (get_at a h) (<[Metric_Name (get_at a h a) := a]> m))
      as (m' & h' & Hrun & Hh).
    exists m', h'. split; [exact Hrun|].
    intros b. rewrite Hh. unfold registrations. cbn [List.filter].
    destruct (Nat.eqb_spec b a) as [->|Hne].
    + rewrite get_at_same. cbn [length]. now rewrite Nat.iter_succ_r.
    + now rewrite get_at_other by congruence.
Qed.

Lemma GetMetricsAsMap_range_nil (l : list ptr) (h : addr -> Metric)
    (m : gmap string addr) :
  GetMetricsAsMap_range l h m = None <-> In None l.
Proof.
  revert h m. induction l as [|[a|] l IH]; intros h m; cbn.
  - split; [discriminate|tauto].
  - rewrite IH. split; [tauto|intros [?|?]; [discriminate|assumption]].
  - split; [tauto|reflexivity].
Qed.

(** X1.  When no registered pointer is nil and [Get] leaves names alone,
    [GetMetricsAsMap] returns a map in which every name leads to the metric
    registered last under that name, and a name nobody registered is
    absent: a later registration shadows an earlier one of the same name. *)
Theorem GetMetricsAsMap_last_registration_wins (r : Registry) (l : list addr) :
  metrics r = map Some l ->
  (forall x, Metric_Name (Metric_Get x) = Metric_Name x) ->
  exists m r',
    GetMetricsAsMap r = Some (m, r') /\
    forall n, m !! n = last (registered_as n (heap r) l).
Proof.
  intros Hl Hname. unfold GetMetricsAsMap. rewrite Hl.
  destruct (GetMetricsAsMap_range_run l (heap r) ∅ Hname)
    as (m & h' & -> & Hm & _).
  eexists _, _. split; [reflexivity|].
  intros n. rewrite Hm. destruct (last _); [reflexivity|apply lookup_empty].
Qed.

(** X2.  One call of [GetMetricsAsMap] calls [Get] on a metric once for each
    time its address is registered, also when the map ends up holding
    another metric under its name, and leaves every other metric and the
    slice of registrations as they were. *)
Theorem GetMetricsAsMap_refreshes_every_registration
    (r : Registry) (l : list addr) :
  metrics r = map Some l ->
  exists m r',
    GetMetricsAsMap r = Some (m, r') /\
    metrics r' = metrics r /\
    forall a, heap r' a = Nat.iter (registrations a l) Metric_Get (heap r a).
Proof.
  intros Hl. unfold GetMetricsAsMap. rewrite Hl.
  destruct (GetMetricsAsMap_range_heap l (heap r) ∅) as (m & h' & -> & Hh).
  eexists _, _. split; [reflexivity|]. cbn. split; [reflexivity|exact Hh].
Qed.

(** X3.  [AddMetric] takes a nil pointer without complaint, and
    [GetMetricsAsMap] panics exactly when one is registered, whatever else
    is. *)
Theorem GetMetricsAsMap_panics_iff_nil_registered (r : Registry) :
  GetMetricsAsMap r = None <-> In None (metrics r).
Proof.
  unfold GetMetricsAsMap. rewrite <- (GetMetricsAsMap_range_nil _ (heap r) ∅).
  destruct (GetMetricsAsMap_range (metrics r) (heap r) ∅) as [[m h]|];
    split; intros; congruence.
Qed.

(** X4.  A metric just added is the one its name leads to in the next map,
    whether or not the name was registered before. *)
Theorem AddMetric_then_lookup (r : Registry) (l : list addr) (a : addr) :
  metrics r = map Some l ->
  (forall x, Metric_Name (Metric_Get x) = Metric_Name x) ->
  exists m r',
    GetMetricsAsMap (AddMetric (Some a) r) = Some (m, r') /\
    m !! Metric_Name (heap r a) = Some a.
Proof.
  intros Hl Hname. unfold GetMetricsAsMap, AddMetric. cbn [metrics heap].
  rewrite Hl. change [Some a] with (map Some [a]). rewrite <- map_app.
  destruct (GetMetricsAsMap_range_run (l ++ [a]) (heap r) ∅ Hname)
    as (m & h' & -> & Hm & _).
  eexists _, _. split; [reflexivity|].
  rewrite Hm. unfold registered_as. rewrite List.filter_app. cbn [List.filter].
  rewrite String.eqb_refl. now rewrite last_snoc.
Qed.

End RegistryProperties.

Lemma GetMetricsAsMap_last_registration_wins_witness :
  exists m r',
    @GetMetricsAsMap sample_metrics sample_registry = Some (m, r') /\
    m !! "nbreq" = Some 2%nat /\
    m !! "test" = Some 0%nat /\
    m !! "absent" = None.
Proof.
  destruct (@GetMetricsAsMap_last_registration_wins sample_metrics
              sample_registry [0; 1; 2]%nat eq_refl)
    as (m & r' & Hrun & Hm); [reflexivity|].
  exists m, r'. split; [exact Hrun|].
  split; [|split]; rewrite Hm; reflexivity.
Defined.

Lemma GetMetricsAsMap_refreshes_every_registration_witness :
  exists m r',
    @GetMetricsAsMap sample_metrics sample_registry = Some (m, r') /\
    heap r' 1%nat = ("nbreq", 1%nat) /\
    heap r' 2%nat = ("nbreq", 1%nat) /\
    heap r' 3%nat = ("nbreq", 0%nat).
Proof.
  destruct (@GetMetricsAsMap_refreshes_every_registration sample_metrics
              sample_registry [0; 1; 2]%nat eq_refl)
    as (m & r' & Hrun & _ & Hh).
  exists m, r'. split; [exact Hrun|].
  split; [|split]; rewrite Hh; reflexivity.
Defined.

Lemma AddMetric_then_lookup_witness :
  exists m r',
    @GetMetricsAsMap sample_metrics (AddMetric (Some 7%nat) sample_registry)
    = Some (m, r') /\
    m !! "nbreq" = Some 7%nat.
Proof.
  apply (@AddMetric_then_lookup sample_metrics sample_registry
           [0; 1; 2]%nat 7%nat eq_refl).
  reflexivity.
Defined.

(** ** connect(), once more *)

Section ConnectProperties.
Context `{Encoding}.

(** With an endpoint cached and a dial that succeeds, [Connect] returns in
    the state [dialled]. *)
Lemma Connect_dial_succeeds
    (fuel : nat) (s : State) (node : string) (c : conn)
    (rest : list (option conn)) :
  wsNode (tp s) = Some node ->
  dials (world s) = Some c :: rest ->
  Connect (S fuel) s = Done tt (dialled node c rest s).
Proof.
  intros Hnode Hd. cbn [Connect].
  rewrite bind_getT, Hnode, bind_ret, bind_getT, Hnode.
  unfold websocket_Dial. rewrite bind_assoc, bind_emit, bind_assoc, bind_getW.
  cbn [with_events world]. rewrite Hd.
  rewrite bind_assoc, bind_modifyW, bind_ret, bind_emit.
  rewrite !bind_modifyT, bind_getT.
  unfold dialled, handlers_started, SetHandlers.
  cbn [tp with_tp with_events with_world].
  destruct (isHandling (tp s)) eqn:Hh.
  - cbn. rewrite Hh. reflexivity.
  - cbn. rewrite Hh. reflexivity.
Qed.

(** With no endpoint cached and a resolution that succeeds, [Connect] goes
    on as it does with that endpoint cached. *)
Lemma Connect_after_resolution
    (fuel : nat) (s s1 : State) (node : string) :
  wsNode (tp s) = None ->
  GetServer s = Done (Some node) s1 ->
  Connect (S fuel) s = Connect (S fuel) (with_tp (set_wsNode (Some node)) s1).
Proof.
  intros Hnode Hget. cbn [Connect]. rewrite bind_getT, Hnode.
  rewrite bind_assoc, (bind_done GetServer _ _ _ _ Hget), bind_modifyT.
  symmetry. rewrite bind_getT.
  change (wsNode (tp (with_tp (set_wsNode (Some node)) s1))) with (Some node).
  cbv beta iota. now rewrite bind_ret.
Qed.

Lemma dialled_tp (node : string) (c : conn) (rest : list (option conn))
    (s : State) :
  tp (dialled node c rest s) = set_isHandling true (connected_on c (tp s)).
Proof.
  unfold dialled, handlers_started. cbn.
  destruct (isHandling (tp s)) eqn:Hh; cbn; [|reflexivity].
  destruct (tp s); cbn in *. now rewrite Hh.
Qed.

Lemma dialled_pool (node : string) (c : conn) (rest : list (option conn))
    (s : State) :
  pool (dialled node c rest s) =
  pool s ++ (if isHandling (tp s) then [] else [GMessagesHandler; GHeartbeatStart])
         ++ [GRefreshStart].
Proof.
  unfold dialled, handlers_started. cbn.
  destruct (isHandling (tp s)); cbn; [reflexivity|].
  now rewrite <- !app_assoc.
Qed.

Lemma dialled_trace (node : string) (c : conn) (rest : list (option conn))
    (s : State) :
  trace (dialled node c rest s) =
  trace s ++ [EvDial node (handshake_headers (tp s)); EvSetCloseHandler c].
Proof.
  unfold dialled, handlers_started. cbn.
  destruct (isHandling (tp s)); cbn; now rewrite <- app_assoc.
Qed.

Lemma dialled_world (node : string) (c : conn) (rest : list (option conn))
    (s : State) :
  world (dialled node c rest s) = set_dials rest (world s).
Proof.
  unfold dialled, handlers_started. cbn.
  destruct (isHandling (tp s)); reflexivity.
Qed.

(** X5.  With an endpoint cached and a dial that succeeds, [Connect] makes
    one dial and no HTTP exchange, installs the close handler, and returns
    with the transporter connected on the new stream, the guard down and
    the handlers marked started.  The dispatcher and the heartbeat
    goroutines are started only when [isHandling] was false; a refresh
    goroutine is started every time.  [isClosed] is left as it was. *)
Theorem Connect_connects_on_successful_dial
    (fuel : nat) (s : State) (node : string) (c : conn)
    (rest : list (option conn)) :
  wsNode (tp s) = Some node ->
  dials (world s) = Some c :: rest ->
  exists s',
    Connect (S fuel) s = Done tt s' /\
    ws (tp s') = Some c /\
    isConnected (tp s') = true /\
    isConnecting (tp s') = false /\
    isHandling (tp s') = true /\
    isClosed (tp s') = isClosed (tp s) /\
    wsNode (tp s') = Some node /\
    trace s' = trace s ++ [EvDial node (handshake_headers (tp s));
                           EvSetCloseHandler c] /\
    pool s' = pool s
              ++ (if isHandling (tp s) then []
                  else [GMessagesHandler; GHeartbeatStart])
              ++ [GRefreshStart].
Proof.
  intros Hnode Hd. exists (dialled node c rest s).
  split; [now apply Connect_dial_succeeds|].
  rewrite dialled_tp, dialled_trace, dialled_pool. cbn.
  repeat split; try reflexivity. exact Hnode.
Qed.

(** X6.  The first [Connect] of a transporter with no endpoint cached, when
    the discovery service answers and the dial succeeds: one HTTP exchange,
    the address of the answer cached and dialled with the handshake headers
    of the configuration, and the transporter connected on the stream. *)
Theorem Connect_resolves_caches_and_dials
    (fuel : nat) (s : State) (data : bytes) (prest : list PostResult)
    (response : VerifyResponse) (c : conn) (rest : list (option conn)) :
  wsNode (tp s) = None ->
  posts (world s) = Body data :: prest ->
  json_Unmarshal_VerifyResponse data = Some response ->
  dials (world s) = Some c :: rest ->
  exists s',
    Connect (S fuel) s = Done tt s' /\
    wsNode (tp s') = Some (WS (Endpoints response)) /\
    ws (tp s') = Some c /\
    isConnected (tp s') = true /\
    isConnecting (tp s') = false /\
    posts (world s') = prest /\
    trace s' =
      trace s ++
      [verify_request s; EvBodyClose;
       EvDial (WS (Endpoints response))
         [("X-KM-PUBLIC", PublicKey (Config_ (tp s)));
          ("X-KM-SECRET", PrivateKey (Config_ (tp s)));
          ("X-KM-SERVER", ServerName (tp s));
          ("X-PM2-VERSION", Version (tp s));
          ("X-PROTOCOL-VERSION", "1")];
       EvSetCloseHandler c].
Proof.
  intros Hnode Hp Hdec Hd.
  set (node := WS (Endpoints response)).
  set (s1 := with_events [EvBodyClose]
               (with_world (set_posts prest) (with_events [verify_request s] s))).
  assert (Hget : GetServer s = Done (Some node) s1).
  { rewrite GetServer_run, Hp, Hdec. reflexivity. }
  set (s2 := with_tp (set_wsNode (Some node)) s1).
  exists (dialled node c rest s2).
  split.
  { rewrite (Connect_after_resolution fuel s s1 node Hnode Hget).
    now apply Connect_dial_succeeds. }
  rewrite dialled_tp, dialled_trace, dialled_world. cbn.
  repeat split; try reflexivity.
  now rewrite <- !app_assoc.
Qed.

(** With an endpoint cached, a stream at hand and a dial that fails,
    [Connect] goes on as it does from [redial_state]. *)
Lemma Connect_dial_fails
    (fuel : nat) (s : State) (node : string) (c0 : conn)
    (rest : list (option conn)) :
  wsNode (tp s) = Some node ->
  ws (tp s) = Some c0 ->
  dials (world s) = None :: rest ->
  Connect (S fuel) s = Connect fuel (redial_state node c0 rest s).
Proof.
  intros Hnode Hws Hd. cbn [Connect].
  rewrite bind_getT, Hnode, bind_ret, bind_getT, Hnode.
  unfold websocket_Dial. rewrite bind_assoc, bind_emit, bind_assoc, bind_getW.
  cbn [with_events world]. rewrite Hd.
  rewrite bind_assoc, bind_modifyW, bind_ret.
  unfold Sleep. rewrite bind_assoc, bind_emit, bind_modifyW, bind_modifyT.
  unfold CloseAndReconnect_with. rewrite bind_getT.
  cbn [tp with_tp with_events with_world isConnecting set_isConnecting].
  unfold redial_state, failed_attempt, ws_Close, with_ws.
  destruct (isClosed (tp s)) eqn:Hc.
  - cbn [isClosed set_isConnecting negb].
    rewrite Hc. cbn [negb]. rewrite bind_ret, !bind_modifyT.
    unfold with_tp, with_world, with_events, mark_reconnecting. cbn.
    rewrite <- !app_assoc. reflexivity.
  - cbn [isClosed set_isConnecting negb].
    rewrite Hc. cbn [negb]. rewrite bind_assoc, bind_getT.
    cbn [tp with_tp with_world with_events ws set_isConnecting]. rewrite Hws.
    rewrite bind_emit, !bind_modifyT.
    unfold with_tp, with_world, with_events, mark_reconnecting. cbn.
    rewrite <- !app_assoc. reflexivity.
Qed.

(** X7.  With an endpoint cached and a stream at hand, [Connect] keeps
    dialling the cached endpoint until a dial succeeds: each failed dial
    costs a sleep of two seconds and, unless the peer closed it, one more
    [Close] of the stream the transporter still holds; no HTTP exchange is
    made.  After [k] failures and a success the clock has advanced by
    [2k] seconds and the transporter is connected on the new stream. *)
Theorem Connect_retries_until_dial_succeeds
    (k fuel : nat) (s : State) (node : string) (c0 c : conn)
    (rest : list (option conn)) :
  wsNode (tp s) = Some node ->
  ws (tp s) = Some c0 ->
  dials (world s) = repeat None k ++ Some c :: rest ->
  exists s',
    Connect (k + S fuel) s = Done tt s' /\
    ws (tp s') = Some c /\
    isConnected (tp s') = true /\
    isConnecting (tp s') = false /\
    wsNode (tp s') = Some node /\
    clock (world s') = (clock (world s) + Z.of_nat k * (2 * Second))%Z /\
    trace s' =
      trace s
      ++ concat (repeat (failed_attempt node c0 (tp s)) k)
      ++ [EvDial node (handshake_headers (tp s)); EvSetCloseHandler c].
Proof.
  revert s. induction k as [|k IH]; intros s Hnode Hws Hd.
  - cbn [repeat app] in Hd. cbn [Nat.add].
    exists (dialled node c rest s).
    split; [now apply Connect_dial_succeeds|].
    rewrite dialled_tp, dialled_trace, dialled_world. cbn.
    repeat split; try reflexivity; [exact Hnode|lia].
  - cbn [repeat app] in Hd. cbn [Nat.add].
    rewrite (Connect_dial_fails _ s node c0 _ Hnode Hws Hd).
    destruct (IH (redial_state node c0 (repeat None k ++ Some c :: rest) s))
      as (s' & Hrun & Hws' & Hcon & Hing & Hn' & Hclock & Htrace);
      [exact Hnode|exact Hws|reflexivity|].
    exists s'. split; [exact Hrun|].
    split; [exact Hws'|]. split; [exact Hcon|]. split; [exact Hing|].
    split; [exact Hn'|]. split.
    + rewrite Hclock. cbn [redial_state world clock set_clock]. lia.
    + rewrite Htrace. cbn [redial_state trace tp repeat concat].
      change (failed_attempt node c0
                (mark_reconnecting (set_isConnecting false (tp s))))
        with (failed_attempt node c0 (tp s)).
      change (handshake_headers
                (mark_reconnecting (set_isConnecting false (tp s))))
        with (handshake_headers (tp s)).
      now rewrite <- !app_assoc.
Qed.

End ConnectProperties.

(** ** closeAndReconnect(), on a transporter that holds a stream *)

Section ReconnectProperties.
Context `{Encoding}.

(** The state [CloseAndReconnect] hands to [Connect]. *)
Lemma reconnecting_dials (node : string) (c0 c : conn)
    (rest : list (option conn)) (s : State) :
  trace (dialled node c rest
           (with_tp mark_reconnecting
              (with_events (if isClosed (tp s) then [] else [EvClose c0]) s))) =
  trace s ++ (if isClosed (tp s) then [] else [EvClose c0])
          ++ [EvDial node (handshake_headers (tp s)); EvSetCloseHandler c].
Proof.
  rewrite dialled_trace. cbn. now rewrite <- app_assoc.
Qed.

(** X8.  A reconnect of a live transporter whose dial succeeds: the old
    stream is closed once, unless the peer closed it, and before the dial;
    the cached endpoint is dialled with no HTTP exchange; the transporter
    ends connected on the new stream with the guard down; and no dispatcher
    or heartbeat goroutine is started while [isHandling] is set. *)
Theorem CloseAndReconnect_redials_cached_endpoint
    (fuel : nat) (s : State) (c0 c : conn) (node : string)
    (rest : list (option conn)) :
  isConnecting (tp s) = false ->
  ws (tp s) = Some c0 ->
  wsNode (tp s) = Some node ->
  dials (world s) = Some c :: rest ->
  exists s',
    CloseAndReconnect (S fuel) s = Done tt s' /\
    ws (tp s') = Some c /\
    isConnected (tp s') = true /\
    isConnecting (tp s') = false /\
    wsNode (tp s') = Some node /\
    posts_made (trace s') = posts_made (trace s) /\
    trace s' =
      trace s ++ (if isClosed (tp s) then [] else [EvClose c0])
              ++ [EvDial node (handshake_headers (tp s)); EvSetCloseHandler c] /\
    pool s' = pool s
              ++ (if isHandling (tp s) then []
                  else [GMessagesHandler; GHeartbeatStart])
              ++ [GRefreshStart].
Proof.
  intros Hg Hws Hnode Hd.
  rewrite (CloseAndReconnect_proceeds (S fuel) s c0 Hg Hws).
  eexists. split; [apply Connect_dial_succeeds; [exact Hnode|exact Hd]|].
  rewrite reconnecting_dials, dialled_tp, dialled_pool. cbn.
  repeat split; try reflexivity; [exact Hnode|].
  rewrite !posts_made_app. destruct (isClosed (tp s)); cbv [posts_made]; cbn; lia.
Qed.

(** ** The endpoint refresh loop *)

(** X9.  A refresh tick that resolves the endpoint already cached changes
    nothing: the transporter, the goroutines, the scripts of the dialer and
    of the stream are as before, and the trace has gained the HTTP exchange
    only. *)
Theorem refresh_tick_keeps_unchanged_endpoint
    (fuel : nat) (s s1 : State) (node : string) :
  GetServer s = Done (Some node) s1 ->
  wsNode (tp s) = Some node ->
  refresh_tick fuel s = Done tt s1 /\
  tp s1 = tp s /\
  pool s1 = pool s /\
  dials (world s1) = dials (world s) /\
  writes (world s1) = writes (world s) /\
  List.filter is_dial (trace s1) = List.filter is_dial (trace s) /\
  List.filter is_close (trace s1) = List.filter is_close (trace s).
Proof.
  intros Hget Hnode.
  destruct (GetServer_frame s)
    as (e & s' & ev & Hrun & Htp & Hpool & Htr & Hev & _ & _ & _ & Hd & Hw & _).
  rewrite Hget in Hrun. injection Hrun as <- <-.
  split.
  { unfold refresh_tick. rewrite (bind_done GetServer _ _ _ _ Hget), bind_getT.
    rewrite Htp, Hnode, String.eqb_refl. reflexivity. }
  repeat split; try assumption;
    rewrite Htr, List.filter_app; destruct Hev as [-> | ->]; cbn;
    now rewrite app_nil_r.
Qed.

(** X10.  A refresh tick that resolves another endpoint than the cached one,
    on a live transporter whose dial succeeds: the new endpoint is cached,
    the old stream is closed once unless the peer closed it, the new
    endpoint is dialled, and the transporter ends connected on the new
    stream. *)
Theorem refresh_tick_moves_to_new_endpoint
    (fuel : nat) (s s1 : State) (fresh cached : string) (c0 c : conn)
    (rest : list (option conn)) :
  GetServer s = Done (Some fresh) s1 ->
  wsNode (tp s) = Some cached ->
  fresh <> cached ->
  isConnecting (tp s) = false ->
  ws (tp s) = Some c0 ->
  dials (world s) = Some c :: rest ->
  exists s',
    refresh_tick (S fuel) s = Done tt s' /\
    wsNode (tp s') = Some fresh /\
    ws (tp s') = Some c /\
    isConnected (tp s') = true /\
    isConnecting (tp s') = false /\
    trace s' =
      trace s1 ++ (if isClosed (tp s) then [] else [EvClose c0])
               ++ [EvDial fresh (handshake_headers (tp s)); EvSetCloseHandler c].
Proof.
  intros Hget Hnode Hne Hg Hws Hd.
  destruct (GetServer_frame s)
    as (e & s' & ev & Hrun & Htp & Hpool & Htr & Hev & _ & _ & _ & Hd1 & _).
  rewrite Hget in Hrun. injection Hrun as <- <-.
  set (s2 := with_tp (set_wsNode (Some fresh)) s1).
  assert (Htick : refresh_tick (S fuel) s = CloseAndReconnect (S fuel) s2).
  { unfold refresh_tick. rewrite (bind_done GetServer _ _ _ _ Hget), bind_getT.
    rewrite Htp, Hnode.
    destruct (String.eqb_spec fresh cached) as [|_]; [contradiction|].
    cbn [negb]. now rewrite bind_modifyT. }
  assert (Hg2 : isConnecting (tp s2) = false) by (cbn; now rewrite Htp).
  assert (Hws2 : ws (tp s2) = Some c0) by (cbn; now rewrite Htp).
  assert (Hd2 : dials (world s2) = Some c :: rest) by (cbn; now rewrite Hd1).
  rewrite Htick, (CloseAndReconnect_proceeds (S fuel) s2 c0 Hg2 Hws2).
  eexists. split; [apply Connect_dial_succeeds; [reflexivity|exact Hd2]|].
  rewrite reconnecting_dials, dialled_tp. cbn. rewrite Htp.
  repeat split; reflexivity.
Qed.

(** X11.  A refresh tick that resolves another endpoint while a reconnection
    is in progress caches the new endpoint and leaves the stream alone:
    nothing is closed and nothing is dialled by the tick. *)
Theorem refresh_tick_during_reconnect
    (fuel : nat) (s s1 : State) (fresh cached : string) :
  GetServer s = Done (Some fresh) s1 ->
  wsNode (tp s) = Some cached ->
  fresh <> cached ->
  isConnecting (tp s) = true ->
  refresh_tick fuel s = Done tt (with_tp (set_wsNode (Some fresh)) s1) /\
  ws (tp (with_tp (set_wsNode (Some fresh)) s1)) = ws (tp s) /\
  isConnected (tp (with_tp (set_wsNode (Some fresh)) s1)) = isConnected (tp s) /\
  List.filter is_dial (trace s1) = List.filter is_dial (trace s) /\
  List.filter is_close (trace s1) = List.filter is_close (trace s).
Proof.
  intros Hget Hnode Hne Hg.
  destruct (GetServer_frame s)
    as (e & s' & ev & Hrun & Htp & Hpool & Htr & Hev & _).
  rewrite Hget in Hrun. injection Hrun as <- <-.
  split.
  { unfold refresh_tick. rewrite (bind_done GetServer _ _ _ _ Hget), bind_getT.
    rewrite Htp, Hnode.
    destruct (String.eqb_spec fresh cached) as [|_]; [contradiction|].
    cbn [negb]. rewrite bind_modifyT.
    apply CloseAndReconnect_guarded. cbn. now rewrite Htp. }
  cbn. rewrite Htp. repeat split;
    rewrite Htr, List.filter_app; destruct Hev as [-> | ->]; cbn;
    now rewrite app_nil_r.
Qed.

End ReconnectProperties.

(** ** The dispatcher, frame by frame *)

Section FrameProperties.
Context `{Encoding}.

Lemma MessagesHandler_iter_decoded
    (fuel : nat) (s : State) (c : conn) (message : bytes)
    (rest : list ReadResult) (dat : gomap) :
  ws (tp s) = Some c ->
  reads (world s) = ReadMessageOk message :: rest ->
  json_Unmarshal message = Some dat ->
  MessagesHandler_iter fuel s =
  (if is_string (index dat "channel") "trigger:action" then
     match index dat "payload" with
     | VMap payload =>
         let name := index payload "action_name" in
         match name with
         | VString n =>
             bind getW (fun w =>
               let response := CallAction (actions w) n payload in
               bind (Send fuel "trigger:action:success"
                       (VMap [("success", VBool true);
                              ("id", index payload "process_id");
                              ("action_name", name)]))
                 (fun _ =>
                    bind (Send fuel "axm:reply"
                            (VMap [("action_name", name); ("return", response)]))
                      (fun _ => ret Continue)))
         | _ => panic TypeAssertion
         end
     | _ => panic TypeAssertion
     end
   else if is_string (index dat "channel") "trigger:pm2:action" then
     match index dat "payload" with
     | VMap payload =>
         if is_string (index payload "method_name") "startLogging"
         then bind (SendJson fuel (MValue startLogging_result))
                (fun _ => ret Continue)
         else ret Continue
     | _ => panic TypeAssertion
     end
   else
     match index dat "channel" with
     | VString ch =>
         bind (emit (EvLog (String.append "msg not registered: " ch)))
           (fun _ => ret Continue)
     | _ => panic TypeAssertion
     end) (after_read c rest s).
Proof.
  intros Hws Hr Hdec. unfold MessagesHandler_iter.
  rewrite (bind_done ws_ReadMessage _ _ _ _ (ws_ReadMessage_ok s c message rest Hws Hr)).
  now rewrite Hdec.
Qed.

(** X12.  A decoded frame whose channel is a string other than
    [trigger:action] and [trigger:pm2:action] is logged and the dispatcher
    goes on to the next read: nothing is written, no field changes, no
    goroutine is started. *)
Theorem MessagesHandler_logs_unknown_channel
    (fuel : nat) (s : State) (c : conn) (message : bytes)
    (rest : list ReadResult) (dat : gomap) (ch : string) :
  ws (tp s) = Some c ->
  reads (world s) = ReadMessageOk message :: rest ->
  json_Unmarshal message = Some dat ->
  index dat "channel" = VString ch ->
  ch <> "trigger:action" ->
  ch <> "trigger:pm2:action" ->
  MessagesHandler_iter fuel s =
  Done Continue
    (with_events [EvLog (String.append "msg not registered: " ch)]
       (after_read c rest s)).
Proof.
  intros Hws Hr Hdec Hch Hn1 Hn2.
  rewrite (MessagesHandler_iter_decoded fuel s c message rest dat Hws Hr Hdec).
  rewrite Hch. cbn [is_string].
  destruct (String.eqb_spec ch "trigger:action") as [|_]; [contradiction|].
  destruct (String.eqb_spec ch "trigger:pm2:action") as [|_]; [contradiction|].
  reflexivity.
Qed.

(** X13.  A decoded frame whose channel is missing or is not a string makes
    the dispatcher panic on the type assertion of the log line, before
    anything is logged or written. *)
Theorem MessagesHandler_panics_on_channel_not_string
    (fuel : nat) (s : State) (c : conn) (message : bytes)
    (rest : list ReadResult) (dat : gomap) :
  ws (tp s) = Some c ->
  reads (world s) = ReadMessageOk message :: rest ->
  json_Unmarshal message = Some dat ->
  (forall ch, index dat "channel" <> VString ch) ->
  MessagesHandler_iter fuel s = Panic TypeAssertion (after_read c rest s).
Proof.
  intros Hws Hr Hdec Hch.
  rewrite (MessagesHandler_iter_decoded fuel s c message rest dat Hws Hr Hdec).
  destruct (index dat "channel") as [| | |ch| |] eqn:E; try reflexivity.
  now destruct (Hch ch).
Qed.

(** X14.  A [trigger:action] or [trigger:pm2:action] frame whose payload is
    missing or is not an object makes the dispatcher panic on the type
    assertion, before any action is called and before anything is written. *)
Theorem MessagesHandler_panics_on_payload_not_object
    (fuel : nat) (s : State) (c : conn) (message : bytes)
    (rest : list ReadResult) (dat : gomap) :
  ws (tp s) = Some c ->
  reads (world s) = ReadMessageOk message :: rest ->
  json_Unmarshal message = Some dat ->
  index dat "channel" = VString "trigger:action" \/
  index dat "channel" = VString "trigger:pm2:action" ->
  (forall payload, index dat "payload" <> VMap payload) ->
  MessagesHandler_iter fuel s = Panic TypeAssertion (after_read c rest s).
Proof.
  intros Hws Hr Hdec Hch Hp.
  rewrite (MessagesHandler_iter_decoded fuel s c message rest dat Hws Hr Hdec).
  destruct Hch as [-> | ->]; cbn [is_string String.eqb Ascii.eqb Bool.eqb];
    destruct (index dat "payload") as [| | | | |p] eqn:E; try reflexivity;
    now destruct (Hp p).
Qed.

(** X15.  A [trigger:action] frame whose payload has no [action_name], or
    one that is not a string, makes the dispatcher panic on the type
    assertion: no action is called and neither the acknowledgment nor the
    reply is written. *)
Theorem MessagesHandler_panics_on_action_name_not_string
    (fuel : nat) (s : State) (c : conn) (message : bytes)
    (rest : list ReadResult) (dat payload : gomap) :
  ws (tp s) = Some c ->
  reads (world s) = ReadMessageOk message :: rest ->
  json_Unmarshal message = Some dat ->
  index dat "channel" = VString "trigger:action" ->
  index dat "payload" = VMap payload ->
  (forall n, index payload "action_name" <> VString n) ->
  MessagesHandler_iter fuel s = Panic TypeAssertion (after_read c rest s).
Proof.
  intros Hws Hr Hdec Hch Hpl Hn.
  rewrite (MessagesHandler_iter_decoded fuel s c message rest dat Hws Hr Hdec).
  rewrite Hch. cbn [is_string String.eqb Ascii.eqb Bool.eqb]. rewrite Hpl.
  cbv zeta.
  destruct (index payload "action_name") as [| | |n| |] eqn:E; try reflexivity.
  now destruct (Hn n).
Qed.

(** X16.  On a live stream, a [trigger:pm2:action] frame with method
    [startLogging] is answered by exactly one text frame, the marshalled
    result map, and the dispatcher goes on; with any other method name
    nothing is written and nothing is logged. *)
Theorem MessagesHandler_answers_startLogging_only
    (fuel : nat) (s : State) (c : conn) (message : bytes)
    (rest : list ReadResult) (dat payload : gomap) (b : bytes)
    (wrest : list bool) :
  ws (tp s) = Some c ->
  isConnected (tp s) = true ->
  reads (world s) = ReadMessageOk message :: rest ->
  json_Unmarshal message = Some dat ->
  index dat "channel" = VString "trigger:pm2:action" ->
  index dat "payload" = VMap payload ->
  json_Marshal (MValue startLogging_result) = Some b ->
  writes (world s) = true :: wrest ->
  exists s',
    MessagesHandler_iter fuel s = Done Continue s' /\
    tp s' = tp s /\
    pool s' = pool s /\
    sent_frames (trace s') =
      sent_frames (trace s)
      ++ (if is_string (index payload "method_name") "startLogging"
          then [b] else []) /\
    List.filter is_log (trace s') = List.filter is_log (trace s).
Proof.
  intros Hws Hc Hr Hdec Hch Hpl Hm Hw.
  rewrite (MessagesHandler_iter_decoded fuel s c message rest dat Hws Hr Hdec).
  rewrite Hch. cbn [is_string String.eqb Ascii.eqb Bool.eqb]. rewrite Hpl.
  change (match index payload "method_name" with
          | VString s0 => (s0 =? "startLogging")%string
          | _ => false
          end) with (is_string (index payload "method_name") "startLogging").
  destruct (is_string (index payload "method_name") "startLogging").
  - assert (Hsend := SendJson_connected fuel (MValue startLogging_result)
                       (after_read c rest s) c b wrest Hws Hc Hm Hw).
    rewrite (bind_done (SendJson fuel _) _ _ _ _ Hsend).
    eexists. split; [reflexivity|]. cbn.
    rewrite <- !app_assoc, sent_frames_app, List.filter_app. cbn.
    rewrite app_nil_r. repeat split; reflexivity.
  - eexists. split; [reflexivity|]. cbn.
    rewrite sent_frames_app, List.filter_app. cbn.
    rewrite !app_nil_r. repeat split; reflexivity.
Qed.

End FrameProperties.

(** ** Failures on the stream *)

Lemma dispatcher_replaced (l : list goroutine) (i : nat) :
  l !! i = Some GMessagesHandler ->
  (length (List.filter is_dispatcher (<[i := GExited]> l)) + 1)%nat
  = length (List.filter is_dispatcher l).
Proof.
  revert i. induction l as [|g l IH]; intros i Hi; [discriminate|].
  destruct i as [|i]; cbn in Hi.
  - injection Hi as ->. cbn. lia.
  - specialize (IH i Hi).
    change (<[S i := GExited]> (g :: l)) with (g :: <[i := GExited]> l).
    cbn [List.filter]. destruct (is_dispatcher g); cbn [length]; lia.
Qed.

Section FailureProperties.
Context `{Encoding}.

Lemma ws_ReadMessage_error (s : State) (c : conn) (rest : list ReadResult) :
  ws (tp s) = Some c ->
  reads (world s) = ReadError :: rest ->
  ws_ReadMessage s = Done None (after_read c rest s).
Proof.
  intros Hws Hr. unfold ws_ReadMessage. run_monad. rewrite Hws. cbn.
  rewrite Hr. reflexivity.
Qed.

Lemma ws_ReadMessage_peer_close (s : State) (c : conn) (rest : list ReadResult) :
  ws (tp s) = Some c ->
  reads (world s) = ReadPeerClose :: rest ->
  ws_ReadMessage s = Done None (with_tp (set_isClosed true) (after_read c rest s)).
Proof.
  intros Hws Hr. unfold ws_ReadMessage. run_monad. rewrite Hws. cbn.
  rewrite Hr. reflexivity.
Qed.

(** The dispatcher's goroutine after a read that returned an error in state
    [s1], when the redial succeeds. *)
Lemma dispatcher_reconnects
    (fuel i : nat) (s s1 : State) (c0 c1 : conn) (node : string)
    (rest : list (option conn)) :
  pool s !! i = Some GMessagesHandler ->
  ws_ReadMessage s = Done None s1 ->
  pool s1 = pool s ->
  ws (tp s1) = Some c0 ->
  isConnecting (tp s1) = false ->
  wsNode (tp s1) = Some node ->
  dials (world s1) = Some c1 :: rest ->
  exists s',
    step (S fuel) i s = Done tt s' /\
    tp s' = set_isHandling true
              (connected_on c1 (mark_reconnecting (set_isHandling false (tp s1)))) /\
    pool s' = <[i := GExited]> (pool s)
              ++ [GMessagesHandler; GHeartbeatStart; GRefreshStart] /\
    trace s' =
      trace s1 ++ (if isClosed (tp s1) then [] else [EvClose c0])
               ++ [EvDial node (handshake_headers (tp s1)); EvSetCloseHandler c1] /\
    world s' = set_dials rest (world s1).
Proof.
  intros Hi Hread Hpool Hws Hg Hnode Hd.
  set (s2 := with_tp (set_isHandling false) s1).
  assert (Hrec : CloseAndReconnect (S fuel) s2 =
                 Done tt (dialled node c1 rest
                            (with_tp mark_reconnecting
                               (with_events (if isClosed (tp s2) then []
                                             else [EvClose c0]) s2)))).
  { rewrite (CloseAndReconnect_proceeds (S fuel) s2 c0 Hg Hws).
    apply Connect_dial_succeeds; [exact Hnode|exact Hd]. }
  assert (Hiter : MessagesHandler_iter (S fuel) s =
                  Done Return (dialled node c1 rest
                                 (with_tp mark_reconnecting
                                    (with_events (if isClosed (tp s2) then []
                                                  else [EvClose c0]) s2)))).
  { unfold MessagesHandler_iter.
    rewrite (bind_done ws_ReadMessage _ _ _ _ Hread), bind_modifyT.
    fold s2. now rewrite (bind_done (CloseAndReconnect (S fuel)) _ _ _ _ Hrec). }
  unfold step. rewrite Hi. cbn [run_goroutine].
  rewrite bind_assoc, (bind_done (MessagesHandler_iter (S fuel)) _ _ _ _ Hiter).
  rewrite bind_ret. unfold set_pool.
  eexists. split; [reflexivity|].
  cbn [tp pool trace world].
  rewrite dialled_tp, dialled_pool, reconnecting_dials, dialled_world.
  cbn [tp with_tp with_events s2 isHandling set_isHandling mark_reconnecting
         set_isConnecting set_isConnected pool trace world isClosed].
  rewrite Hpool.
  assert (Hlt : (i < length (pool s))%nat) by (eapply lookup_lt_Some; eauto).
  rewrite insert_app_l by exact Hlt.
  repeat split; reflexivity.
Qed.

(** X17.  When the dispatcher's read fails on a live transporter and the
    redial succeeds, the dispatcher closes the stream, reconnects on the
    cached endpoint and exits, and [Connect] starts a new dispatcher in its
    place: as many dispatchers are parked after the turn as before. *)
Theorem dispatcher_is_replaced_after_read_error
    (fuel i : nat) (s : State) (c0 c1 : conn) (node : string)
    (rrest : list ReadResult) (rest : list (option conn)) :
  pool s !! i = Some GMessagesHandler ->
  ws (tp s) = Some c0 ->
  isConnecting (tp s) = false ->
  isClosed (tp s) = false ->
  wsNode (tp s) = Some node ->
  reads (world s) = ReadError :: rrest ->
  dials (world s) = Some c1 :: rest ->
  exists s',
    step (S fuel) i s = Done tt s' /\
    pool s' = <[i := GExited]> (pool s)
              ++ [GMessagesHandler; GHeartbeatStart; GRefreshStart] /\
    active_dispatchers s' = active_dispatchers s /\
    ws (tp s') = Some c1 /\
    isConnected (tp s') = true /\
    isHandling (tp s') = true /\
    trace s' = trace s ++ [EvRead c0; EvClose c0;
                           EvDial node (handshake_headers (tp s));
                           EvSetCloseHandler c1].
Proof.
  intros Hi Hws Hg Hc Hnode Hr Hd.
  destruct (dispatcher_reconnects fuel i s (after_read c0 rrest s) c0 c1 node rest
              Hi (ws_ReadMessage_error s c0 rrest Hws Hr) eq_refl Hws Hg Hnode Hd)
    as (s' & Hstep & Htp & Hpool & Htr & _).
  exists s'. split; [exact Hstep|]. split; [exact Hpool|].
  split.
  { unfold active_dispatchers. rewrite Hpool, List.filter_app, length_app.
    cbn. rewrite <- (dispatcher_replaced _ _ Hi). lia. }
  rewrite Htp, Htr. cbn. rewrite Hc. cbn.
  rewrite <- !app_assoc. repeat split; reflexivity.
Qed.

(** X18.  When the peer closes the stream and the redial succeeds, the
    dispatcher reconnects without calling [Close], and [isClosed] is still
    set on the new connection: the next reconnect replaces the new stream
    without closing it either. *)
Theorem peer_close_is_never_forgotten
    (fuel i : nat) (s : State) (c0 c1 c2 : conn) (node : string)
    (rrest : list ReadResult) (rest : list (option conn)) :
  pool s !! i = Some GMessagesHandler ->
  ws (tp s) = Some c0 ->
  isConnecting (tp s) = false ->
  wsNode (tp s) = Some node ->
  reads (world s) = ReadPeerClose :: rrest ->
  dials (world s) = Some c1 :: Some c2 :: rest ->
  exists s' s'',
    step (S fuel) i s = Done tt s' /\
    ws (tp s') = Some c1 /\
    isConnected (tp s') = true /\
    isClosed (tp s') = true /\
    trace s' = trace s ++ [EvRead c0;
                           EvDial node (handshake_headers (tp s));
                           EvSetCloseHandler c1] /\
    CloseAndReconnect (S fuel) s' = Done tt s'' /\
    ws (tp s'') = Some c2 /\
    isClosed (tp s'') = true /\
    trace s'' = trace s' ++ [EvDial node (handshake_headers (tp s));
                             EvSetCloseHandler c2].
Proof.
  intros Hi Hws Hg Hnode Hr Hd.
  destruct (dispatcher_reconnects fuel i s
              (with_tp (set_isClosed true) (after_read c0 rrest s)) c0 c1 node
              (Some c2 :: rest)
              Hi (ws_ReadMessage_peer_close s c0 rrest Hws Hr) eq_refl Hws Hg
              Hnode Hd)
    as (s' & Hstep & Htp & Hpool & Htr & Hw).
  assert (Hg' : isConnecting (tp s') = false) by now rewrite Htp.
  assert (Hws' : ws (tp s') = Some c1) by now rewrite Htp.
  assert (Hc' : isClosed (tp s') = true) by now rewrite Htp.
  assert (Hn' : wsNode (tp s') = Some node) by now rewrite Htp.
  assert (Hd' : dials (world s') = Some c2 :: rest) by now rewrite Hw.
  exists s'. eexists.
  split; [exact Hstep|]. split; [exact Hws'|].
  split; [now rewrite Htp|]. split; [exact Hc'|].
  split; [rewrite Htr; cbn; now rewrite <- !app_assoc|].
  split.
  { rewrite (CloseAndReconnect_proceeds (S fuel) s' c1 Hg' Hws').
    apply Connect_dial_succeeds; [exact Hn'|exact Hd']. }
  rewrite dialled_tp, reconnecting_dials, Hc'. cbn. rewrite Hc', Htp.
  repeat split; reflexivity.
Qed.

(** X19.  When the write of [SendJson] fails on a live transporter and the
    redial succeeds, the reconnect runs inside the call: the mutex, taken
    before the write, is released only after the new stream is up; the
    message is written once and is not sent again on the new stream. *)
Theorem SendJson_reconnects_under_the_lock
    (fuel : nat) (msg : marshalled) (s : State) (c0 c1 : conn) (node : string)
    (b : bytes) (wrest : list bool) (rest : list (option conn)) :
  ws (tp s) = Some c0 ->
  isConnected (tp s) = true ->
  isConnecting (tp s) = false ->
  wsNode (tp s) = Some node ->
  json_Marshal msg = Some b ->
  writes (world s) = false :: wrest ->
  dials (world s) = Some c1 :: rest ->
  exists s',
    SendJson (S fuel) msg s = Done tt s' /\
    ws (tp s') = Some c1 /\
    isConnected (tp s') = true /\
    trace s' =
      trace s
      ++ [EvLock; EvSetWriteDeadline c0 (clock (world s) + 30 * Second);
          EvWrite c0 TextMessage b false]
      ++ (if isClosed (tp s) then [] else [EvClose c0])
      ++ [EvDial node (handshake_headers (tp s)); EvSetCloseHandler c1;
          EvUnlock] /\
    sent_frames (trace s') = sent_frames (trace s) /\
    writes (world s') = wrest.
Proof.
  intros Hws Hc Hg Hnode Hm Hw Hd.
  set (s1 := with_events [EvLock;
                          EvSetWriteDeadline c0 (clock (world s) + 30 * Second);
                          EvWrite c0 TextMessage b false]
               (with_world (set_writes wrest) s)).
  assert (Hrec : CloseAndReconnect (S fuel) s1 =
                 Done tt (dialled node c1 rest
                            (with_tp mark_reconnecting
                               (with_events (if isClosed (tp s1) then []
                                             else [EvClose c0]) s1)))).
  { rewrite (CloseAndReconnect_proceeds (S fuel) s1 c0 Hg Hws).
    apply Connect_dial_succeeds; [exact Hnode|exact Hd]. }
  assert (Hrun : SendJson (S fuel) msg s =
                 defer Unlock (CloseAndReconnect (S fuel)) s1).
  { unfold SendJson, ws_SetWriteDeadline, ws_WriteMessage. rewrite Hm.
    remember (CloseAndReconnect (S fuel)) as reconnect eqn:Hrecon.
    unfold s1. run_monad.
    repeat (progress (cbn; rewrite ?Hc, ?Hws, ?Hw)).
    unfold with_events, with_world. cbn. rewrite <- !app_assoc. reflexivity. }
  rewrite Hrun. unfold defer. rewrite Hrec. unfold Unlock, emit.
  eexists. split; [reflexivity|].
  cbn [tp world trace].
  rewrite dialled_tp, reconnecting_dials, dialled_world.
  cbn [tp world trace s1 with_tp with_events with_world isClosed set_writes
         writes set_dials].
  split; [reflexivity|]. split; [reflexivity|].
  split; [now rewrite <- !app_assoc|].
  split; [|reflexivity].
  rewrite <- !app_assoc, !sent_frames_app.
  destruct (isClosed (tp s)); cbn; now rewrite app_nil_r.
Qed.

End FailureProperties.

(** ** The heartbeat loop over time *)

Lemma heartbeat_count_insert (l : list goroutine) (i : nat) (g g' : goroutine) :
  l !! i = Some g ->
  (length (List.filter is_heartbeat_loop (<[i := g']> l))
   + (if is_heartbeat_loop g then 1 else 0))%nat
  = (length (List.filter is_heartbeat_loop l)
     + (if is_heartbeat_loop g' then 1 else 0))%nat.
Proof.
  revert i. induction l as [|a l IH]; intros i Hi; [discriminate|].
  destruct i as [|i]; cbn in Hi.
  - injection Hi as ->.
    change (<[0%nat := g']> (g :: l)) with (g' :: l).
    cbn [List.filter].
    destruct (is_heartbeat_loop g), (is_heartbeat_loop g'); cbn [length]; lia.
  - specialize (IH i Hi).
    change (<[S i := g']> (a :: l)) with (a :: <[i := g']> l).
    cbn [List.filter]. destruct (is_heartbeat_loop a); cbn [length]; lia.
Qed.

#[export] Instance at_most_one_heartbeat_invariant :
  Invariant at_most_one_heartbeat.
Proof.
  split; unfold at_most_one_heartbeat, active_heartbeats; cbn.
  - intros f s Hf [Hle Hnone]. split; [exact Hle|].
    intros Hft. apply Hnone.
    destruct (heartbeatTicker (tp s)) eqn:Ht; [|reflexivity].
    exfalso. apply (Hf (tp s)); [now rewrite Ht|exact Hft].
  - intros f s Hs. exact Hs.
  - intros ev s Hs. exact Hs.
  - intros g s Hg [Hle Hnone].
    assert (Hz : length (List.filter is_heartbeat_loop [g]) = 0%nat)
      by (destruct g; cbn; congruence).
    rewrite List.filter_app, length_app, Hz, Nat.add_0_r. split; assumption.
Qed.

Section HeartbeatOverTime.
Context `{Encoding}.

(** A goroutine parks as a running heartbeat loop only if it was one, or if
    it is the heartbeat goroutine starting while no ticker exists. *)
Lemma run_goroutine_becomes_loop
    (fuel : nat) (g g' : goroutine) (s s' : State) :
  run_goroutine fuel g s = Done g' s' ->
  is_heartbeat_loop g' = true ->
  g = GHeartbeatLoop \/
  (g = GHeartbeatStart /\ heartbeatTicker (tp s) = None /\
   pool s' = pool s /\ heartbeatTicker (tp s') <> None).
Proof.
  destruct g; cbn [run_goroutine].
  - unfold bind. destruct (Sleep _ s); try discriminate.
    destruct (Connect fuel s0); try discriminate. now intros [= <- _].
  - unfold bind. destruct (refresh_start s) as [[] ?| |]; try discriminate;
      now intros [= <- _].
  - unfold bind. destruct (refresh_tick fuel s); try discriminate.
    now intros [= <- _].
  - unfold bind. destruct (MessagesHandler_iter fuel s) as [[] ?| |];
      try discriminate; now intros [= <- _].
  - unfold heartbeat_start. rewrite bind_assoc, bind_getT.
    destruct (heartbeatTicker (tp s)) eqn:Ht.
    + rewrite !bind_ret. now intros [= <- _].
    + rewrite bind_assoc, bind_modifyT, !bind_ret. intros [= <- <-] _.
      right. cbn. repeat split. discriminate.
  - intros _ _. now left.
  - now intros [= <- _].
Qed.

Lemma step_keeps_at_most_one_heartbeat (fuel i : nat) :
  preserves at_most_one_heartbeat (step fuel i).
Proof.
  intros s Hs. unfold step.
  destruct (pool s !! i) as [g|] eqn:Hi; [|exact Hs].
  assert (Hrun := preserves_run_goroutine fuel g at_most_one_heartbeat s Hs).
  assert (Hext := preserves_run_goroutine fuel g (pool_extends (pool s)) s
                    (pool_extends_refl s)).
  assert (Hloop := run_goroutine_becomes_loop fuel g).
  unfold bind.
  destruct (run_goroutine fuel g s) as [g' s1| |] eqn:Hrg; cbn in *;
    try exact Hrun.
  destruct Hext as (extra & Hpool & Hextra).
  assert (Hi1 : pool s1 !! i = Some g).
  { rewrite Hpool. rewrite lookup_app_l; [exact Hi|].
    eapply lookup_lt_Some; eauto. }
  assert (Hcount := heartbeat_count_insert (pool s1) i g g' Hi1).
  destruct Hrun as [Hle Hnone].
  unfold at_most_one_heartbeat, active_heartbeats in *. cbn.
  destruct (is_heartbeat_loop g') eqn:Hg'.
  - destruct (Hloop g' s s1 Hrg Hg') as [->|(-> & Ht & Hp & Ht1)].
    + cbn in Hcount. split; [lia|]. intros Hn. specialize (Hnone Hn). lia.
    + cbn in Hcount. destruct Hs as [_ Hzero]. specialize (Hzero Ht).
      rewrite Hp in *. split; [lia|]. intros Hn. contradiction.
  - destruct (is_heartbeat_loop g); split; try lia;
      intros Hn; specialize (Hnone Hn); lia.
Qed.

Lemma perform_all_keeps_at_most_one_heartbeat (fuel : nat) (l : list action) :
  preserves at_most_one_heartbeat (perform_all fuel l).
Proof.
  induction l as [|a l IH]; cbn [perform_all].
  - apply preserves_ret.
  - apply preserves_bind; [|intros _; exact IH].
    destruct a; cbn [perform].
    + apply step_keeps_at_most_one_heartbeat.
    + apply preserves_Send. typeclasses eauto.
Qed.

(** X20.  From a new transporter, whatever the network answers, however
    the goroutines take turns (each one running undisturbed from where it is
    parked to where it parks again) and whenever the host sends, there is
    never more than one heartbeat loop: the ticker guard lets only the first
    heartbeat goroutine through. *)
Theorem never_two_heartbeat_loops
    (config : Config) (version hostname serverName node : string) (w : World)
    (fuel0 fuel : nat) (l : list action) :
  (active_heartbeats
     (final (perform_all fuel l
               (final (Connect fuel0
                         (start (NewTransporter config version hostname
                                   serverName node) w)))))
   <= 1)%nat.
Proof.
  assert (Hstart : at_most_one_heartbeat
                     (start (NewTransporter config version hostname
                               serverName node) w)).
  { split; cbn; [lia|reflexivity]. }
  apply (preserves_Connect at_most_one_heartbeat fuel0) in Hstart.
  apply (perform_all_keeps_at_most_one_heartbeat fuel l) in Hstart.
  exact (proj1 Hstart).
Qed.

End HeartbeatOverTime.

(** ** Properties kept by every method, second family *)

Section ClosedLeaves.
Context {okT : (Transporter -> Transporter) -> Prop}
        {okE : event -> Prop} {okG : goroutine -> Prop}
        (P : State -> Prop) `{!Closed okT okE okG P}.

Lemma closed_modifyT f : okT f -> preserves P (modifyT f).
Proof. intros Hf s Hs. now apply (closed_tp f s). Qed.

Lemma closed_modifyW f : preserves P (modifyW f).
Proof. intros s Hs. now apply (closed_world f s). Qed.

Lemma closed_emit e : okE e -> preserves P (emit e).
Proof. intros He s Hs. now apply (closed_event e s). Qed.

Lemma closed_goroutine g : okG g -> preserves P (go g).
Proof. intros Hg s Hs. now apply (closed_go g s). Qed.

End ClosedLeaves.

Create HintDb sticky.

Ltac sticky_side :=
  first
    [ solve [split; intros ? ?; first [assumption | reflexivity | discriminate]]
    | solve [match goal with
             | Hother : forall e, is_close e = false -> _ |- _ =>
                 apply Hother; reflexivity
             end]
    | solve [unfold not_refresh_loop; discriminate]
    | solve [exact I] ].

Ltac sticky_step :=
  repeat first
    [ assumption
    | solve [eauto 2 with sticky typeclass_instances nocore]
    | apply preserves_ret
    | apply preserves_panic
    | apply preserves_out_of_fuel
    | apply preserves_getT
    | apply preserves_getW
    | eapply closed_modifyW; solve [typeclasses eauto]
    | eapply closed_emit; [solve [typeclasses eauto] | sticky_side]
    | eapply closed_modifyT; [solve [typeclasses eauto] | sticky_side]
    | eapply closed_goroutine; [solve [typeclasses eauto] | sticky_side]
    | apply preserves_defer
    | apply preserves_bind; [|intros ?]
    | match goal with
      | |- preserves _ (match ?x with _ => _ end) => destruct x
      end ].

Section StickyMethods.
Context `{Encoding}.
Context {okE : event -> Prop} (P : State -> Prop)
        `{!Closed sticky okE not_refresh_loop P}.
Hypothesis okE_other : forall e, is_close e = false -> okE e.
Hypothesis P_reconnect :
  forall connect, preserves P connect -> preserves P (CloseAndReconnect_with connect).

Lemma sticky_Sleep d : preserves P (Sleep d).
Proof. unfold Sleep. sticky_step. Qed.

Lemma sticky_http_Post url ct body : preserves P (http_Post url ct body).
Proof. unfold http_Post. sticky_step. Qed.

Lemma sticky_websocket_Dial url headers : preserves P (websocket_Dial url headers).
Proof. unfold websocket_Dial. sticky_step. Qed.

Lemma sticky_ws_SetWriteDeadline d : preserves P (ws_SetWriteDeadline d).
Proof. unfold ws_SetWriteDeadline, with_ws. sticky_step. Qed.

Lemma sticky_ws_WriteMessage mt data : preserves P (ws_WriteMessage mt data).
Proof. unfold ws_WriteMessage, with_ws. sticky_step. Qed.

Lemma sticky_ws_ReadMessage : preserves P ws_ReadMessage.
Proof. unfold ws_ReadMessage, with_ws. sticky_step. Qed.

#[local] Hint Resolve sticky_Sleep sticky_http_Post sticky_websocket_Dial
  sticky_ws_SetWriteDeadline sticky_ws_WriteMessage sticky_ws_ReadMessage
  : sticky.

Lemma sticky_GetServer : preserves P GetServer.
Proof. unfold GetServer. cbv zeta. sticky_step. Qed.

Lemma sticky_SetHandlers : preserves P SetHandlers.
Proof. unfold SetHandlers. sticky_step. Qed.

#[local] Hint Resolve sticky_GetServer sticky_SetHandlers : sticky.

Lemma sticky_Connect fuel : preserves P (Connect fuel).
Proof.
  induction fuel as [|fuel IH]; cbn [Connect]; [apply preserves_out_of_fuel|].
  sticky_step.
Qed.

Lemma sticky_CloseAndReconnect fuel : preserves P (CloseAndReconnect fuel).
Proof. apply P_reconnect, sticky_Connect. Qed.

#[local] Hint Resolve sticky_Connect sticky_CloseAndReconnect : sticky.

Lemma sticky_SendJson fuel msg : preserves P (SendJson fuel msg).
Proof. unfold SendJson, Lock, Unlock. sticky_step. Qed.

#[local] Hint Resolve sticky_SendJson : sticky.

Lemma sticky_Send fuel channel data : preserves P (Send fuel channel data).
Proof. unfold Send. sticky_step. Qed.

#[local] Hint Resolve sticky_Send : sticky.

Lemma sticky_MessagesHandler_iter fuel : preserves P (MessagesHandler_iter fuel).
Proof. unfold MessagesHandler_iter. cbv zeta. sticky_step. Qed.

Lemma sticky_heartbeat_start : preserves P heartbeat_start.
Proof. unfold heartbeat_start. sticky_step. Qed.

Lemma sticky_heartbeat_tick fuel : preserves P (heartbeat_tick fuel).
Proof. unfold heartbeat_tick, Lock, Unlock. sticky_step. Qed.

Lemma sticky_refresh_start : preserves P refresh_start.
Proof. unfold refresh_start. sticky_step. Qed.

Lemma sticky_refresh_tick fuel : preserves P (refresh_tick fuel).
Proof. unfold refresh_tick. sticky_step. Qed.

#[local] Hint Resolve sticky_MessagesHandler_iter sticky_heartbeat_start
  sticky_heartbeat_tick sticky_refresh_start sticky_refresh_tick : sticky.

Lemma sticky_run_goroutine fuel g : preserves P (run_goroutine fuel g).
Proof. destruct g; cbn [run_goroutine]; sticky_step. Qed.

End StickyMethods.

(** ** The refresh loop and the close flag over time *)

Lemma count_insert (p : goroutine -> bool) (l : list goroutine) (i : nat)
    (g g' : goroutine) :
  l !! i = Some g ->
  (length (List.filter p (<[i := g']> l)) + (if p g then 1 else 0))%nat
  = (length (List.filter p l) + (if p g' then 1 else 0))%nat.
Proof.
  revert i. induction l as [|a l IH]; intros i Hi; [discriminate|].
  destruct i as [|i]; cbn in Hi.
  - injection Hi as ->.
    change (<[0%nat := g']> (g :: l)) with (g' :: l).
    cbn [List.filter]. destruct (p g), (p g'); cbn [length]; lia.
  - specialize (IH i Hi).
    change (<[S i := g']> (a :: l)) with (a :: <[i := g']> l).
    cbn [List.filter]. destruct (p a); cbn [length]; lia.
Qed.

#[export] Instance at_most_one_refresh_closed :
  Closed sticky any_event not_refresh_loop at_most_one_refresh.
Proof.
  split; unfold at_most_one_refresh, active_refreshes; cbn.
  - intros f s [_ Hf] [Hle Hnone]. split; [exact Hle|].
    intros Hft. apply Hnone.
    destruct (serverTicker (tp s)) eqn:Ht; [|reflexivity].
    exfalso. apply (Hf (tp s)); [now rewrite Ht|exact Hft].
  - intros f s Hs. exact Hs.
  - intros e s _ Hs. exact Hs.
  - intros g s Hg [Hle Hnone].
    assert (Hz : length (List.filter is_refresh_loop [g]) = 0%nat)
      by (destruct g; cbn; unfold not_refresh_loop in Hg; congruence).
    rewrite List.filter_app, length_app, Hz, Nat.add_0_r. split; assumption.
Qed.

#[export] Instance closed_by_peer_closed (closes : list event) :
  Closed sticky not_close not_refresh_loop (closed_by_peer closes).
Proof.
  split; unfold closed_by_peer; cbn.
  - intros f s [Hf _] [Hc Hn]. split; [now apply Hf|exact Hn].
  - intros f s Hs. exact Hs.
  - intros e s He [Hc Hn]. split; [exact Hc|].
    rewrite List.filter_app. cbn. unfold not_close in He. rewrite He.
    now rewrite app_nil_r.
  - intros g s _ Hs. exact Hs.
Qed.

(** The pool only grows, in this family too. *)
#[export] Instance pool_grows_closed (l : list goroutine) :
  Closed sticky any_event not_refresh_loop
    (fun s => exists extra, pool s = l ++ extra).
Proof.
  split; cbn; intros; try assumption.
  destruct H0 as (extra & ->). exists (extra ++ [g]). now rewrite app_assoc.
Qed.

Section StickyOverTime.
Context `{Encoding}.

Lemma any_event_other (e : event) : is_close e = false -> any_event e.
Proof. intros _. exact I. Qed.

Lemma not_close_other (e : event) : is_close e = false -> not_close e.
Proof. intros He. exact He. Qed.

Lemma reconnect_any (P : State -> Prop)
    `{!Closed sticky any_event not_refresh_loop P} (connect : M unit) :
  preserves P connect -> preserves P (CloseAndReconnect_with connect).
Proof.
  intros Hc. unfold CloseAndReconnect_with, ws_Close, with_ws. sticky_step.
Qed.

(** Once [isClosed] is set, [CloseAndReconnect] skips the [Close]. *)
Lemma reconnect_closed_by_peer (closes : list event) (connect : M unit) :
  preserves (closed_by_peer closes) connect ->
  preserves (closed_by_peer closes) (CloseAndReconnect_with connect).
Proof.
  intros Hconnect s Hs. unfold CloseAndReconnect_with. rewrite bind_getT.
  destruct (isConnecting (tp s)); [exact Hs|].
  destruct Hs as [Hc Hn]. rewrite Hc. cbn [negb].
  rewrite bind_ret, !bind_modifyT. apply Hconnect.
  split; [exact Hc|exact Hn].
Qed.

(** A goroutine parks as a running refresh loop only if it was one, or if it
    is the refresh goroutine starting while no ticker exists. *)
Lemma run_goroutine_becomes_refresh_loop
    (fuel : nat) (g g' : goroutine) (s s' : State) :
  run_goroutine fuel g s = Done g' s' ->
  is_refresh_loop g' = true ->
  g = GRefreshLoop \/
  (g = GRefreshStart /\ serverTicker (tp s) = None /\
   pool s' = pool s /\ serverTicker (tp s') <> None).
Proof.
  destruct g; cbn [run_goroutine].
  - unfold bind. destruct (Sleep _ s); try discriminate.
    destruct (Connect fuel s0); try discriminate. now intros [= <- _].
  - unfold refresh_start. rewrite bind_assoc, bind_getT.
    destruct (serverTicker (tp s)) eqn:Ht.
    + rewrite !bind_ret. now intros [= <- _].
    + rewrite bind_assoc, bind_modifyT, !bind_ret. intros [= <- <-] _.
      right. cbn. repeat split. discriminate.
  - intros _ _. now left.
  - unfold bind. destruct (MessagesHandler_iter fuel s) as [[] ?| |];
      try discriminate; now intros [= <- _].
  - unfold bind. destruct (heartbeat_start s) as [[] ?| |]; try discriminate;
      now intros [= <- _].
  - unfold bind. destruct (heartbeat_tick fuel s) as [[] ?| |];
      try discriminate; now intros [= <- _].
  - now intros [= <- _].
Qed.

Lemma step_keeps_at_most_one_refresh (fuel i : nat) :
  preserves at_most_one_refresh (step fuel i).
Proof.
  intros s Hs. unfold step.
  destruct (pool s !! i) as [g|] eqn:Hi; [|exact Hs].
  assert (Hrun := sticky_run_goroutine at_most_one_refresh any_event_other
                    (reconnect_any at_most_one_refresh) fuel g s Hs).
  assert (Hext := sticky_run_goroutine (fun s' => exists extra, pool s' = pool s ++ extra)
                    any_event_other (reconnect_any _) fuel g s
                    (ex_intro _ [] (eq_sym (app_nil_r _)))).
  assert (Hloop := run_goroutine_becomes_refresh_loop fuel g).
  unfold bind.
  destruct (run_goroutine fuel g s) as [g' s1| |] eqn:Hrg; cbn in *;
    try exact Hrun.
  destruct Hext as (extra & Hpool).
  assert (Hi1 : pool s1 !! i = Some g).
  { rewrite Hpool. rewrite lookup_app_l; [exact Hi|].
    eapply lookup_lt_Some; eauto. }
  assert (Hcount := count_insert is_refresh_loop (pool s1) i g g' Hi1).
  destruct Hrun as [Hle Hnone].
  unfold at_most_one_refresh, active_refreshes in *. cbn.
  destruct (is_refresh_loop g') eqn:Hg'.
  - destruct (Hloop g' s s1 Hrg Hg') as [->|(-> & Ht & Hp & Ht1)].
    + cbn in Hcount. split; [lia|]. intros Hn. specialize (Hnone Hn). lia.
    + cbn in Hcount. destruct Hs as [_ Hzero]. specialize (Hzero Ht).
      rewrite <- Hp in Hzero. split; [lia|]. intros Hn. contradiction.
  - destruct (is_refresh_loop g); split; try lia;
      intros Hn; specialize (Hnone Hn); lia.
Qed.

Lemma perform_all_keeps_at_most_one_refresh (fuel : nat) (l : list action) :
  preserves at_most_one_refresh (perform_all fuel l).
Proof.
  induction l as [|a l IH]; cbn [perform_all].
  - apply preserves_ret.
  - apply preserves_bind; [|intros _; exact IH].
    destruct a; cbn [perform].
    + apply step_keeps_at_most_one_refresh.
    + apply (sticky_Send at_most_one_refresh any_event_other
               (reconnect_any at_most_one_refresh)).
Qed.

(** X21.  From a new transporter, whatever the network answers, however the
    goroutines take turns (each one running undisturbed from where it is
    parked to where it parks again) and whenever the host sends, there is
    never more than one endpoint refresh loop, however many times [Connect]
    succeeds: every later refresh goroutine returns on the ticker guard. *)
Theorem never_two_refresh_loops
    (config : Config) (version hostname serverName node : string) (w : World)
    (fuel0 fuel : nat) (l : list action) :
  (active_refreshes
     (final (perform_all fuel l
               (final (Connect fuel0
                         (start (NewTransporter config version hostname
                                   serverName node) w)))))
   <= 1)%nat.
Proof.
  assert (Hstart : at_most_one_refresh
                     (start (NewTransporter config version hostname
                               serverName node) w)).
  { split; cbn; [lia|reflexivity]. }
  apply (sticky_Connect at_most_one_refresh any_event_other
           (reconnect_any at_most_one_refresh) fuel0) in Hstart.
  apply (perform_all_keeps_at_most_one_refresh fuel l) in Hstart.
  exact (proj1 Hstart).
Qed.

Lemma step_keeps_closed_by_peer (closes : list event) (fuel i : nat) :
  preserves (closed_by_peer closes) (step fuel i).
Proof.
  intros s Hs. unfold step.
  destruct (pool s !! i) as [g|] eqn:Hi; [|exact Hs].
  assert (Hrun := sticky_run_goroutine (closed_by_peer closes) not_close_other
                    (reconnect_closed_by_peer closes) fuel g s Hs).
  unfold bind. destruct (run_goroutine fuel g s) as [g' s1| |]; exact Hrun.
Qed.

(** X22.  Nothing ever clears [isClosed]: once the peer has closed one
    stream, however the goroutines take turns and whenever the host
    sends, [isClosed] stays set and the transporter never calls [Close] on
    any stream again, through every later reconnect. *)
Theorem no_Close_after_peer_close
    (fuel : nat) (l : list action) (s : State) :
  isClosed (tp s) = true ->
  isClosed (tp (final (perform_all fuel l s))) = true /\
  List.filter is_close (trace (final (perform_all fuel l s))) =
  List.filter is_close (trace s).
Proof.
  intros Hc.
  assert (Hkeep : forall l', preserves (closed_by_peer (List.filter is_close (trace s)))
                               (perform_all fuel l')).
  { induction l' as [|a l' IH]; cbn [perform_all].
    - apply preserves_ret.
    - apply preserves_bind; [|intros _; exact IH].
      destruct a; cbn [perform].
      + apply step_keeps_closed_by_peer.
      + apply (sticky_Send _ not_close_other (reconnect_closed_by_peer _)). }
  apply (Hkeep l s). split; [exact Hc|reflexivity].
Qed.

End StickyOverTime.

(** ** The further properties on concrete runs *)

Lemma Connect_connects_on_successful_dial_witness :
  exists s',
    @Connect sample_encoding 1 (connected_state ping_fails_redial_succeeds)
    = Done tt s' /\
    ws (tp s') = Some 2%nat /\
    isConnected (tp s') = true /\
    pool s' = [GMessagesHandler; GHeartbeatLoop; GRefreshLoop; GRefreshStart].
Proof.
  destruct (@Connect_connects_on_successful_dial sample_encoding 0
              (connected_state ping_fails_redial_succeeds) "wss://a" 2%nat []
              eq_refl eq_refl)
    as (s' & Hrun & Hws & Hc & _ & _ & _ & _ & _ & Hpool).
  exists s'. repeat split; assumption.
Defined.

Lemma Connect_resolves_caches_and_dials_witness :
  exists s',
    @Connect sample_encoding 1 (start sample_transporter collector_up)
    = Done tt s' /\
    wsNode (tp s') = Some "wss://a" /\
    ws (tp s') = Some 1%nat /\
    isConnected (tp s') = true.
Proof.
  destruct (@Connect_resolves_caches_and_dials sample_encoding 0
              (start sample_transporter collector_up)
              "endpoints.ws = wss://a" []
              {| Endpoints := {| WS := "wss://a" |} |} 1%nat []
              eq_refl eq_refl eq_refl eq_refl)
    as (s' & Hrun & Hnode & Hws & Hc & _).
  exists s'. repeat split; assumption.
Defined.

Lemma Connect_retries_until_dial_succeeds_witness :
  exists s',
    @Connect sample_encoding 3 (connected_state two_dials_refused) = Done tt s' /\
    ws (tp s') = Some 2%nat /\
    clock (world s') = (clock offline + 4000000000)%Z /\
    List.filter is_close (trace s') = [EvClose 1%nat; EvClose 1%nat] /\
    List.filter is_sleep (trace s') = [EvSleep 2000000000; EvSleep 2000000000].
Proof.
  destruct (@Connect_retries_until_dial_succeeds sample_encoding 2 0
              (connected_state two_dials_refused) "wss://a" 1%nat 2%nat []
              eq_refl eq_refl eq_refl)
    as (s' & Hrun & Hws & _ & _ & _ & Hclock & Htrace).
  exists s'. split; [exact Hrun|]. split; [exact Hws|].
  split; [exact Hclock|]. rewrite Htrace. split; reflexivity.
Defined.

Lemma CloseAndReconnect_redials_cached_endpoint_witness :
  exists s',
    @CloseAndReconnect sample_encoding 1
      (connected_state ping_fails_redial_succeeds) = Done tt s' /\
    ws (tp s') = Some 2%nat /\
    posts_made (trace s') = 0%nat /\
    trace s' = [EvClose 1%nat;
                EvDial "wss://a" (handshake_headers sample_transporter);
                EvSetCloseHandler 2%nat].
Proof.
  destruct (@CloseAndReconnect_redials_cached_endpoint sample_encoding 0
              (connected_state ping_fails_redial_succeeds) 1%nat 2%nat "wss://a"
              [] eq_refl eq_refl eq_refl eq_refl)
    as (s' & Hrun & Hws & _ & _ & _ & Hposts & Htrace & _).
  exists s'. repeat split; assumption.
Defined.

Lemma refresh_tick_keeps_unchanged_endpoint_witness :
  exists s1,
    @refresh_tick sample_encoding 1 (connected_state collector_stays)
    = Done tt s1 /\
    tp s1 = tp (connected_state collector_stays) /\
    List.filter is_dial (trace s1) = [].
Proof.
  eexists.
  destruct (@refresh_tick_keeps_unchanged_endpoint sample_encoding 1
              (connected_state collector_stays) _ "wss://a"
              ltac:(vm_compute; reflexivity) eq_refl)
    as (Hrun & Htp & _ & _ & _ & Hdial & _).
  split; [exact Hrun|]. split; [exact Htp|exact Hdial].
Defined.

Lemma refresh_tick_moves_to_new_endpoint_witness :
  exists s',
    @refresh_tick sample_encoding 1 (connected_state collector_moved)
    = Done tt s' /\
    wsNode (tp s') = Some "wss://b" /\
    ws (tp s') = Some 2%nat /\
    isConnected (tp s') = true.
Proof.
  destruct (@refresh_tick_moves_to_new_endpoint sample_encoding 0
              (connected_state collector_moved) _ "wss://b" "wss://a"
              1%nat 2%nat []
              ltac:(vm_compute; reflexivity) eq_refl ltac:(discriminate)
              eq_refl eq_refl eq_refl)
    as (s' & Hrun & Hnode & Hws & Hc & _).
  exists s'. repeat split; assumption.
Defined.

Lemma refresh_tick_during_reconnect_witness :
  exists s',
    @refresh_tick sample_encoding 1
      (with_tp (set_isConnecting true) (connected_state collector_moved))
    = Done tt s' /\
    wsNode (tp s') = Some "wss://b" /\
    ws (tp s') = Some 1%nat /\
    List.filter is_dial (trace s') = [].
Proof.
  eexists.
  destruct (@refresh_tick_during_reconnect sample_encoding 1
              (with_tp (set_isConnecting true) (connected_state collector_moved))
              _ "wss://b" "wss://a"
              ltac:(vm_compute; reflexivity) eq_refl ltac:(discriminate) eq_refl)
    as (Hrun & Hws & _ & Hdial & _).
  split; [exact Hrun|]. split; [reflexivity|]. split; [exact Hws|exact Hdial].
Defined.

Lemma MessagesHandler_logs_unknown_channel_witness :
  @MessagesHandler_iter sample_frames 1
    (connected_state (one_frame "custom channel"))
  = Done Continue
      (with_events [EvLog "msg not registered: custom:event"]
         (after_read 1%nat [] (connected_state (one_frame "custom channel")))).
Proof.
  apply (@MessagesHandler_logs_unknown_channel sample_frames 1
           (connected_state (one_frame "custom channel")) 1%nat
           "custom channel" [] [("channel", VString "custom:event")]
           "custom:event");
    try reflexivity; discriminate.
Defined.

Lemma MessagesHandler_panics_on_channel_not_string_witness :
  @MessagesHandler_iter sample_frames 1
    (connected_state (one_frame "empty object"))
  = Panic TypeAssertion
      (after_read 1%nat [] (connected_state (one_frame "empty object"))).
Proof.
  apply (@MessagesHandler_panics_on_channel_not_string sample_frames 1
           (connected_state (one_frame "empty object")) 1%nat
           "empty object" [] []);
    try reflexivity. discriminate.
Defined.

Lemma MessagesHandler_panics_on_payload_not_object_witness :
  @MessagesHandler_iter sample_frames 1
    (connected_state (one_frame "trigger with a string payload"))
  = Panic TypeAssertion
      (after_read 1%nat []
         (connected_state (one_frame "trigger with a string payload"))).
Proof.
  apply (@MessagesHandler_panics_on_payload_not_object sample_frames 1
           (connected_state (one_frame "trigger with a string payload")) 1%nat
           "trigger with a string payload" []
           [("channel", VString "trigger:action"); ("payload", VString "Test")]);
    try reflexivity; [now left|discriminate].
Defined.

Lemma MessagesHandler_panics_on_action_name_not_string_witness :
  @MessagesHandler_iter sample_frames 1
    (connected_state (one_frame "trigger with a numeric name"))
  = Panic TypeAssertion
      (after_read 1%nat []
         (connected_state (one_frame "trigger with a numeric name"))).
Proof.
  apply (@MessagesHandler_panics_on_action_name_not_string sample_frames 1
           (connected_state (one_frame "trigger with a numeric name")) 1%nat
           "trigger with a numeric name" []
           [("channel", VString "trigger:action");
            ("payload", VMap [("action_name", VFloat64 0)])]
           [("action_name", VFloat64 0)]);
    try reflexivity. discriminate.
Defined.

Lemma MessagesHandler_answers_startLogging_only_witness :
  exists s',
    @MessagesHandler_iter sample_frames 1
      (connected_state (one_frame "start logging")) = Done Continue s' /\
    sent_frames (trace s') = ["value"].
Proof.
  destruct (@MessagesHandler_answers_startLogging_only sample_frames 1
              (connected_state (one_frame "start logging")) 1%nat
              "start logging" []
              [("channel", VString "trigger:pm2:action");
               ("payload", VMap [("method_name", VString "startLogging")])]
              [("method_name", VString "startLogging")] "value" []
              eq_refl eq_refl eq_refl eq_refl eq_refl eq_refl eq_refl eq_refl)
    as (s' & Hrun & _ & _ & Hsent & _).
  exists s'. split; [exact Hrun|exact Hsent].
Defined.

Lemma dispatcher_is_replaced_after_read_error_witness :
  exists s',
    @step sample_encoding 1 0 (connected_state read_fails_redial_succeeds)
    = Done tt s' /\
    pool s' = [GExited; GHeartbeatLoop; GRefreshLoop;
               GMessagesHandler; GHeartbeatStart; GRefreshStart] /\
    active_dispatchers s' = 1%nat /\
    ws (tp s') = Some 2%nat.
Proof.
  destruct (@dispatcher_is_replaced_after_read_error sample_encoding 0 0
              (connected_state read_fails_redial_succeeds) 1%nat 2%nat "wss://a"
              [] [] eq_refl eq_refl eq_refl eq_refl eq_refl eq_refl eq_refl)
    as (s' & Hrun & Hpool & Hn & Hws & _).
  exists s'. repeat split; assumption.
Defined.

Lemma peer_close_is_never_forgotten_witness :
  exists s' s'',
    @step sample_encoding 1 0 (connected_state peer_closes_twice_redialled)
    = Done tt s' /\
    isClosed (tp s') = true /\
    @CloseAndReconnect sample_encoding 1 s' = Done tt s'' /\
    ws (tp s'') = Some 3%nat /\
    List.filter is_close (trace s'') = [].
Proof.
  destruct (@peer_close_is_never_forgotten sample_encoding 0 0
              (connected_state peer_closes_twice_redialled) 1%nat 2%nat 3%nat
              "wss://a" [] [] eq_refl eq_refl eq_refl eq_refl eq_refl eq_refl)
    as (s' & s'' & Hrun & _ & _ & Hc & Htr & Hrec & Hws & _ & Htr').
  exists s', s''. split; [exact Hrun|]. split; [exact Hc|].
  split; [exact Hrec|]. split; [exact Hws|].
  rewrite Htr', Htr. reflexivity.
Defined.

Lemma SendJson_reconnects_under_the_lock_witness :
  exists s',
    @SendJson sample_encoding 1 (MValue VNil)
      (connected_state write_fails_redial_succeeds) = Done tt s' /\
    ws (tp s') = Some 2%nat /\
    sent_frames (trace s') = [] /\
    last (trace s') = Some EvUnlock.
Proof.
  destruct (@SendJson_reconnects_under_the_lock sample_encoding 0 (MValue VNil)
              (connected_state write_fails_redial_succeeds) 1%nat 2%nat "wss://a"
              "value" [] []
              eq_refl eq_refl eq_refl eq_refl eq_refl eq_refl eq_refl)
    as (s' & Hrun & Hws & _ & Htr & Hsent & _).
  exists s'. split; [exact Hrun|]. split; [exact Hws|].
  split; [exact Hsent|]. rewrite Htr. reflexivity.
Defined.

Lemma no_Close_after_peer_close_witness :
  isClosed
    (tp (final (@perform_all sample_encoding 2 [Turn 1; HostSend "axm:monitor" VNil]
                  (with_tp (set_isClosed true)
                     (connected_state ping_fails_redial_succeeds))))) = true /\
  List.filter is_close
    (trace (final (@perform_all sample_encoding 2
                     [Turn 1; HostSend "axm:monitor" VNil]
                     (with_tp (set_isClosed true)
                        (connected_state ping_fails_redial_succeeds))))) = [].
Proof.
  apply (@no_Close_after_peer_close sample_encoding 2
           [Turn 1; HostSend "axm:monitor" VNil]
           (with_tp (set_isClosed true)
              (connected_state ping_fails_redial_succeeds))).
  reflexivity.
Defined.

(** ** Properties kept once an endpoint is cached, third family *)

Create HintDb resolved.

Ltac resolved_side :=
  first
    [ solve [intros ? ?; cbn; first [assumption | discriminate]]
    | solve [unfold not_retry; discriminate]
    | solve [exact I] ].

Ltac resolved_step :=
  repeat first
    [ assumption
    | solve [eauto 2 with resolved typeclass_instances nocore]
    | apply preserves_ret
    | apply preserves_panic
    | apply preserves_out_of_fuel
    | apply preserves_getT
    | apply preserves_getW
    | eapply closed_modifyW; solve [typeclasses eauto]
    | eapply closed_emit; [solve [typeclasses eauto] | resolved_side]
    | eapply closed_modifyT; [solve [typeclasses eauto] | resolved_side]
    | eapply closed_goroutine; [solve [typeclasses eauto] | resolved_side]
    | apply preserves_defer
    | apply preserves_bind; [|intros ?]
    | match goal with
      | |- preserves _ (match ?x with _ => _ end) => destruct x
      end ].

Section ResolvedMethods.
Context `{Encoding}.
Context (P : State -> Prop) `{!Closed keeps_endpoint any_event not_retry P}.
Hypothesis P_resolved : forall s, P s -> wsNode (tp s) <> None.

Lemma resolved_Sleep d : preserves P (Sleep d).
Proof. unfold Sleep. resolved_step. Qed.

Lemma resolved_http_Post url ct body : preserves P (http_Post url ct body).
Proof. unfold http_Post. resolved_step. Qed.

Lemma resolved_websocket_Dial url headers :
  preserves P (websocket_Dial url headers).
Proof. unfold websocket_Dial. resolved_step. Qed.

Lemma resolved_ws_Close : preserves P ws_Close.
Proof. unfold ws_Close, with_ws. resolved_step. Qed.

Lemma resolved_ws_SetWriteDeadline d : preserves P (ws_SetWriteDeadline d).
Proof. unfold ws_SetWriteDeadline, with_ws. resolved_step. Qed.

Lemma resolved_ws_WriteMessage mt data : preserves P (ws_WriteMessage mt data).
Proof. unfold ws_WriteMessage, with_ws. resolved_step. Qed.

Lemma resolved_ws_ReadMessage : preserves P ws_ReadMessage.
Proof. unfold ws_ReadMessage, with_ws. resolved_step. Qed.

#[local] Hint Resolve resolved_Sleep resolved_http_Post resolved_websocket_Dial
  resolved_ws_Close resolved_ws_SetWriteDeadline resolved_ws_WriteMessage
  resolved_ws_ReadMessage : resolved.

Lemma resolved_GetServer : preserves P GetServer.
Proof. unfold GetServer. cbv zeta. resolved_step. Qed.

Lemma resolved_SetHandlers : preserves P SetHandlers.
Proof. unfold SetHandlers. resolved_step. Qed.

Lemma resolved_CloseAndReconnect_with (connect : M unit) :
  preserves P connect -> preserves P (CloseAndReconnect_with connect).
Proof. intros Hconnect. unfold CloseAndReconnect_with. resolved_step. Qed.

#[local] Hint Resolve resolved_GetServer resolved_SetHandlers
  resolved_CloseAndReconnect_with : resolved.

(** With an endpoint cached, [Connect] skips the resolver and the retry
    goroutine. *)
Lemma resolved_Connect fuel : preserves P (Connect fuel).
Proof.
  induction fuel as [|fuel IH]; cbn [Connect]; [apply preserves_out_of_fuel|].
  intros s Hs. rewrite bind_getT.
  destruct (wsNode (tp s)) as [node|] eqn:Hnode;
    [|now destruct (P_resolved s Hs)].
  rewrite bind_ret, bind_getT, Hnode.
  match goal with
  | |- P (final (?m s)) => assert (Hm : preserves P m); [|exact (Hm s Hs)]
  end.
  resolved_step.
Qed.

Lemma resolved_CloseAndReconnect fuel : preserves P (CloseAndReconnect fuel).
Proof. apply resolved_CloseAndReconnect_with, resolved_Connect. Qed.

#[local] Hint Resolve resolved_Connect resolved_CloseAndReconnect : resolved.

Lemma resolved_SendJson fuel msg : preserves P (SendJson fuel msg).
Proof. unfold SendJson, Lock, Unlock. resolved_step. Qed.

#[local] Hint Resolve resolved_SendJson : resolved.

Lemma resolved_Send fuel channel data : preserves P (Send fuel channel data).
Proof. unfold Send. resolved_step. Qed.

#[local] Hint Resolve resolved_Send : resolved.

Lemma resolved_MessagesHandler_iter fuel :
  preserves P (MessagesHandler_iter fuel).
Proof. unfold MessagesHandler_iter. cbv zeta. resolved_step. Qed.

Lemma resolved_heartbeat_start : preserves P heartbeat_start.
Proof. unfold heartbeat_start. resolved_step. Qed.

Lemma resolved_heartbeat_tick fuel : preserves P (heartbeat_tick fuel).
Proof. unfold heartbeat_tick, Lock, Unlock. resolved_step. Qed.

Lemma resolved_refresh_start : preserves P refresh_start.
Proof. unfold refresh_start. resolved_step. Qed.

Lemma resolved_refresh_tick fuel : preserves P (refresh_tick fuel).
Proof. unfold refresh_tick. resolved_step. Qed.

#[local] Hint Resolve resolved_MessagesHandler_iter resolved_heartbeat_start
  resolved_heartbeat_tick resolved_refresh_start resolved_refresh_tick
  : resolved.

Lemma resolved_run_goroutine fuel g : preserves P (run_goroutine fuel g).
Proof. destruct g; cbn [run_goroutine]; resolved_step. Qed.

End ResolvedMethods.

(** ** The retry goroutine and the cached endpoint over time *)

#[export] Instance resolved_closed (n : nat) :
  Closed keeps_endpoint any_event not_retry (resolved n).
Proof.
  split; unfold resolved, pending_retries; cbn.
  - intros f s Hf [Hn Hr]. split; [now apply Hf|exact Hr].
  - intros f s Hs. exact Hs.
  - intros e s _ Hs. exact Hs.
  - intros g s Hg [Hn Hr]. split; [exact Hn|].
    assert (Hz : length (List.filter is_retry [g]) = 0%nat)
      by (destruct g; cbn; unfold not_retry in Hg; congruence).
    rewrite List.filter_app, length_app, Hz. lia.
Qed.

Lemma resolved_wsNode (n : nat) (s : State) :
  resolved n s -> wsNode (tp s) <> None.
Proof. now intros [Hn _]. Qed.

Section RetriesOverTime.
Context `{Encoding}.

(** No goroutine parks as a retry goroutine. *)
Lemma run_goroutine_not_retry
    (fuel : nat) (g g' : goroutine) (s s' : State) :
  run_goroutine fuel g s = Done g' s' -> is_retry g' = false.
Proof.
  destruct g; cbn [run_goroutine].
  - unfold bind. destruct (Sleep _ s); try discriminate.
    destruct (Connect fuel s0); try discriminate. now intros [= <- _].
  - unfold bind. destruct (refresh_start s) as [[] ?| |]; try discriminate;
      now intros [= <- _].
  - unfold bind. destruct (refresh_tick fuel s); try discriminate.
    now intros [= <- _].
  - unfold bind. destruct (MessagesHandler_iter fuel s) as [[] ?| |];
      try discriminate; now intros [= <- _].
  - unfold bind. destruct (heartbeat_start s) as [[] ?| |]; try discriminate;
      now intros [= <- _].
  - unfold bind. destruct (heartbeat_tick fuel s) as [[] ?| |];
      try discriminate; now intros [= <- _].
  - now intros [= <- _].
Qed.

(** With no endpoint cached and a resolution that fails, [Connect] leaves
    a retry goroutine and returns. *)
Lemma Connect_resolution_fails (fuel : nat) (s s1 : State) :
  wsNode (tp s) = None ->
  GetServer s = Done None s1 ->
  Connect (S fuel) s = Done tt (with_goroutine GRetryConnect s1).
Proof.
  intros Hnode Hget.
  destruct (GetServer_frame s) as (e & s' & ev & Hrun & Htp & _).
  rewrite Hget in Hrun. injection Hrun as <- <-.
  cbn [Connect]. rewrite bind_getT, Hnode.
  rewrite bind_assoc, (bind_done GetServer _ _ _ _ Hget).
  rewrite bind_modifyT, bind_getT. cbn.
  unfold go, with_goroutine, with_tp. cbn.
  rewrite set_wsNode_same; [reflexivity|]. now rewrite Htp.
Qed.

(** What [Connect] can do while no endpoint is cached. *)
Lemma Connect_unresolved (fuel : nat) (s : State) :
  wsNode (tp s) = None ->
  Connect fuel s = OutOfFuel s \/
  (exists s1, Connect fuel s = Done tt (with_goroutine GRetryConnect s1) /\
              tp s1 = tp s /\ pool s1 = pool s) \/
  resolved (pending_retries s) (final (Connect fuel s)).
Proof.
  intros Hnode. destruct fuel as [|fuel]; [now left|right].
  destruct (GetServer_frame s) as (e & s1 & ev & Hget & Htp & Hpool & _).
  destruct e as [node|].
  - right. rewrite (Connect_after_resolution fuel s s1 node Hnode Hget).
    apply (resolved_Connect (resolved (pending_retries s)) (resolved_wsNode _)).
    split; [discriminate|]. unfold pending_retries. cbn. now rewrite Hpool.
  - left. exists s1. split; [|split; assumption].
    now apply Connect_resolution_fails.
Qed.

Lemma unresolved_lookup (s : State) (i : nat) (g : goroutine) :
  unresolved s -> pool s !! i = Some g -> g = GExited \/ g = GRetryConnect.
Proof.
  intros (_ & _ & Hall & _) Hi.
  exact (Forall_lookup_1 _ _ _ _ Hall Hi).
Qed.

Lemma Sleep_run (d : Z) (s : State) :
  exists s0, Sleep d s = Done tt s0 /\ tp s0 = tp s /\ pool s0 = pool s.
Proof.
  unfold Sleep. eexists. rewrite bind_emit. unfold modifyW.
  split; [reflexivity|]. split; reflexivity.
Qed.

Lemma step_keeps_at_most_one_retry (fuel i : nat) :
  preserves at_most_one_retry (step fuel i).
Proof.
  intros s Hs. unfold step.
  destruct (pool s !! i) as [g|] eqn:Hi; [|exact Hs].
  destruct Hs as [Hu | [Hnode Hle]].
  - destruct (unresolved_lookup s i g Hu Hi) as [-> | ->].
    + cbn. left. destruct Hu as (Hn & Hc & Hall & Hle).
      assert (Hsame : <[i := GExited]> (pool s) = pool s)
        by now apply list_insert_id.
      unfold unresolved, pending_retries. cbn. rewrite Hsame. tauto.
    + cbn [run_goroutine].
      destruct (Sleep_run (10 * Second) s) as (s0 & Hsleep & Htp0 & Hpool0).
      rewrite bind_assoc, (bind_done (Sleep _) _ _ _ _ Hsleep).
      destruct Hu as (Hn & Hc & Hall & Hle).
      assert (Hn0 : wsNode (tp s0) = None) by now rewrite Htp0.
      assert (Hcount := count_insert is_retry (pool s) i GRetryConnect GExited Hi).
      cbn in Hcount.
      destruct (Connect_unresolved fuel s0 Hn0)
        as [Hout | [(s1 & Hdone & Htp1 & Hpool1) | Hres]].
      * unfold bind. rewrite Hout. cbn. left.
        unfold unresolved, pending_retries. now rewrite Htp0, Hpool0.
      * rewrite bind_assoc, (bind_done (Connect fuel) _ _ _ _ Hdone), bind_ret.
        cbn. left. unfold unresolved, pending_retries. cbn.
        rewrite Htp1, Htp0, Hpool1, Hpool0.
        assert (Hlt : (i < length (pool s))%nat) by (eapply lookup_lt_Some; eauto).
        rewrite insert_app_l by exact Hlt.
        rewrite List.filter_app, length_app. cbn.
        unfold pending_retries in Hle.
        repeat split; try assumption; [|lia].
        apply Forall_app. split; [|repeat constructor; now right].
        apply Forall_insert; [exact Hall|now left].
      * right. unfold bind.
        assert (Hp0 : pending_retries s0 = pending_retries s)
          by (unfold pending_retries; now rewrite Hpool0).
        rewrite Hp0 in Hres.
        assert (Hext := preserves_Connect (pool_extends (pool s0)) fuel s0
                          (pool_extends_refl s0)).
        destruct (Connect fuel s0) as [[] s1| |]; cbn in *;
          try (destruct Hres as [Hr1 Hr2]; split; [exact Hr1|lia]).
        destruct Hres as [Hr1 Hr2]. split; [exact Hr1|].
        destruct Hext as (extra & Hpool1 & _).
        assert (Hi1 : pool s1 !! i = Some GRetryConnect).
        { rewrite Hpool1, Hpool0. rewrite lookup_app_l; [exact Hi|].
          eapply lookup_lt_Some; eauto. }
        assert (Hc1 := count_insert is_retry (pool s1) i GRetryConnect GExited Hi1).
        unfold pending_retries in *. cbn in *. lia.
  - right.
    assert (Hrun := resolved_run_goroutine (resolved (pending_retries s))
                      (resolved_wsNode _) fuel g s (conj Hnode eq_refl)).
    assert (Hext := preserves_run_goroutine fuel g (pool_extends (pool s)) s
                      (pool_extends_refl s)).
    assert (Hnot := run_goroutine_not_retry fuel g).
    unfold bind.
    destruct (run_goroutine fuel g s) as [g' s1| |] eqn:Hrg; cbn in *;
      try (destruct Hrun as [Hr1 Hr2]; split; [exact Hr1|lia]).
    destruct Hrun as [Hr1 Hr2]. split; [exact Hr1|].
    destruct Hext as (extra & Hpool1 & _).
    assert (Hi1 : pool s1 !! i = Some g).
    { rewrite Hpool1. rewrite lookup_app_l; [exact Hi|].
      eapply lookup_lt_Some; eauto. }
    assert (Hc1 := count_insert is_retry (pool s1) i g g' Hi1).
    rewrite (Hnot g' s s1 Hrg) in Hc1.
    unfold pending_retries in *. cbn in *. destruct (is_retry g); lia.
Qed.

Lemma Send_keeps_at_most_one_retry (fuel : nat) (channel : string)
    (data : value) :
  preserves at_most_one_retry (Send fuel channel data).
Proof.
  intros s [Hu | [Hnode Hle]].
  - left. destruct Hu as (Hn & Hc & Hall & Hle).
    unfold Send. rewrite bind_getT, bind_getW.
    rewrite (SendJson_disconnected _ _ _ Hc). cbn.
    unfold unresolved, pending_retries. cbn. tauto.
  - right.
    assert (Hrun := resolved_Send (resolved (pending_retries s))
                      (resolved_wsNode _) fuel channel data s
                      (conj Hnode eq_refl)).
    destruct Hrun as [Hr1 Hr2]. split; [exact Hr1|lia].
Qed.

Lemma perform_all_keeps_at_most_one_retry (fuel : nat) (l : list action) :
  preserves at_most_one_retry (perform_all fuel l).
Proof.
  induction l as [|a l IH]; cbn [perform_all].
  - apply preserves_ret.
  - apply preserves_bind; [|intros _; exact IH].
    destruct a; cbn [perform].
    + apply step_keeps_at_most_one_retry.
    + apply Send_keeps_at_most_one_retry.
Qed.

(** X23.  From a new transporter, whatever the network answers, however the
    goroutines take turns and whenever the host sends, at most one retry
    goroutine of [Connect] is waiting: a retry that fails to resolve leaves
    one successor and exits, and none is started once an endpoint is
    cached. *)
Theorem never_two_pending_retries
    (config : Config) (version hostname serverName node : string) (w : World)
    (fuel0 fuel : nat) (l : list action) :
  (pending_retries
     (final (perform_all fuel l
               (final (Connect fuel0
                         (start (NewTransporter config version hostname
                                   serverName node) w)))))
   <= 1)%nat.
Proof.
  set (s := start (NewTransporter config version hostname serverName node) w).
  assert (Hstart : at_most_one_retry (final (Connect fuel0 s))).
  { destruct (Connect_unresolved fuel0 s eq_refl)
      as [Hout | [(s1 & Hdone & Htp1 & Hpool1) | Hres]].
    - rewrite Hout. left. repeat split; cbn; auto.
    - rewrite Hdone. left. unfold unresolved, pending_retries. cbn.
      rewrite Htp1, Hpool1. cbn. repeat split; auto.
    - right. destruct Hres as [Hr1 Hr2]. split; [exact Hr1|].
      rewrite Hr2. cbn. lia. }
  apply (perform_all_keeps_at_most_one_retry fuel l) in Hstart.
  destruct Hstart as [(_ & _ & _ & Hle) | [_ Hle]]; exact Hle.
Qed.

(** X24.  An endpoint once cached stays cached: however the goroutines take
    turns and whenever the host sends, [wsNode] never goes back to nil (the
    refresh loop replaces it by another resolved endpoint only), and no
    retry goroutine is started any more. *)
Theorem cached_endpoint_is_never_dropped
    (fuel : nat) (l : list action) (s : State) :
  wsNode (tp s) <> None ->
  wsNode (tp (final (perform_all fuel l s))) <> None /\
  (pending_retries (final (perform_all fuel l s)) <= pending_retries s)%nat.
Proof.
  intros Hnode.
  assert (Hstep : forall n i,
            preserves (fun s' => wsNode (tp s') <> None /\
                                 (pending_retries s' <= n)%nat) (step fuel i)).
  { intros n i s0 [Hn0 Hle0]. unfold step.
    destruct (pool s0 !! i) as [g|] eqn:Hi; [|now split].
    assert (Hrun := resolved_run_goroutine (resolved (pending_retries s0))
                      (resolved_wsNode _) fuel g s0 (conj Hn0 eq_refl)).
    assert (Hext := preserves_run_goroutine fuel g (pool_extends (pool s0)) s0
                      (pool_extends_refl s0)).
    assert (Hnot := run_goroutine_not_retry fuel g).
    unfold bind.
    destruct (run_goroutine fuel g s0) as [g' s1| |] eqn:Hrg; cbn in *;
      try (destruct Hrun as [Hr1 Hr2]; split; [exact Hr1|lia]).
    destruct Hrun as [Hr1 Hr2]. split; [exact Hr1|].
    destruct Hext as (extra & Hpool1 & _).
    assert (Hi1 : pool s1 !! i = Some g).
    { rewrite Hpool1. rewrite lookup_app_l; [exact Hi|].
      eapply lookup_lt_Some; eauto. }
    assert (Hc1 := count_insert is_retry (pool s1) i g g' Hi1).
    rewrite (Hnot g' s0 s1 Hrg) in Hc1.
    unfold pending_retries in *. cbn in *. destruct (is_retry g); lia. }
  assert (Hkeep : forall l',
            preserves (fun s' => wsNode (tp s') <> None /\
                                 (pending_retries s' <= pending_retries s)%nat)
              (perform_all fuel l')).
  { induction l' as [|a l' IH]; cbn [perform_all].
    - apply preserves_ret.
    - apply preserves_bind; [|intros _; exact IH].
      destruct a; cbn [perform].
      + apply Hstep.
      + intros s0 [Hn0 Hle0].
        destruct (resolved_Send (resolved (pending_retries s0))
                    (resolved_wsNode _) fuel channel data s0
                    (conj Hn0 eq_refl)) as [Hr1 Hr2].
        split; [exact Hr1|lia]. }
  apply (Hkeep l s). split; [exact Hnode|lia].
Qed.

End RetriesOverTime.

Lemma cached_endpoint_is_never_dropped_witness :
  wsNode (tp (final (@perform_all sample_encoding 2
                       [Turn 2; Turn 1; HostSend "axm:monitor" VNil]
                       (connected_state collector_moved)))) <> None /\
  (pending_retries (final (@perform_all sample_encoding 2
                             [Turn 2; Turn 1; HostSend "axm:monitor" VNil]
                             (connected_state collector_moved)))
   <= pending_retries (connected_state collector_moved))%nat.
Proof.
  apply (@cached_endpoint_is_never_dropped sample_encoding 2
           [Turn 2; Turn 1; HostSend "axm:monitor" VNil]
           (connected_state collector_moved)).
  discriminate.
Defined.

(** ** Sending in sequence *)

Section SendingInSequence.
Context `{Encoding}.

(** X25.  On a live stream that takes every write, successive calls of
    [Send] put exactly one text frame each on the stream, in the order of
    the calls, each one the marshalled envelope of its message; the
    transporter and the goroutines are left as they were. *)
Theorem Send_writes_frames_in_call_order
    (fuel : nat) (msgs : list (string * value)) (frames : list bytes)
    (s : State) (c : conn) (wrest : list bool) :
  ws (tp s) = Some c ->
  isConnected (tp s) = true ->
  Forall2 (frame_of s) msgs frames ->
  writes (world s) = repeat true (length msgs) ++ wrest ->
  exists s',
    perform_all fuel (host_sends msgs) s = Done tt s' /\
    tp s' = tp s /\
    pool s' = pool s /\
    writes (world s') = wrest /\
    sent_frames (trace s') = sent_frames (trace s) ++ frames.
Proof.
  revert frames s wrest.
  induction msgs as [|[ch d] msgs IH]; intros frames s wrest Hws Hc HF Hw.
  - inversion HF; subst. exists s. cbn. rewrite app_nil_r. tauto.
  - inversion HF as [|m b ms frames' Hb HF' E1 E2]; subst.
    cbn [length repeat] in Hw. rewrite <- app_comm_cons in Hw.
    cbn [host_sends map perform_all perform fst snd].
    rewrite (bind_done (Send fuel ch d) _ _ _ _
               (Send_connected fuel ch d s c b _ Hws Hc Hb Hw)).
    set (s1 := with_events _ _).
    destruct (IH frames' s1 wrest Hws Hc HF' eq_refl)
      as (s' & Hrun & Htp & Hpool & Hwr & Hsent).
    exists s'. split; [exact Hrun|]. split; [exact Htp|].
    split; [exact Hpool|]. split; [exact Hwr|].
    rewrite Hsent. cbn. rewrite sent_frames_app. cbn.
    now rewrite <- app_assoc.
Qed.

End SendingInSequence.

Lemma Send_writes_frames_in_call_order_witness :
  exists s',
    @perform_all sample_encoding 1
      (host_sends [("axm:monitor", VNil); ("logs", VString "started")])
      (connected_state two_writes) = Done tt s' /\
    sent_frames (trace s') = ["message on axm:monitor"; "message on logs"].
Proof.
  destruct (@Send_writes_frames_in_call_order sample_encoding 1
              [("axm:monitor", VNil); ("logs", VString "started")]
              ["message on axm:monitor"; "message on logs"]
              (connected_state two_writes) 1%nat []
              eq_refl eq_refl
              ltac:(repeat constructor) eq_refl)
    as (s' & Hrun & _ & _ & _ & Hsent).
  exists s'. split; [exact Hrun|exact Hsent].
Defined.
